(* ===== verification/_CoqProject ===== *)
-Q . S2P
Prelude.v
Redis.v
Discord.v
Gacha.v
Pool.v
History.v
Json.v
Render.v
Shards.v
Bot.v
Runs.v
Concurrency.v
Ledger.v
Interleaving.v
