(* ===== verification/Prelude.v ===== *)
(** * Verification of the SunJinWoo gacha bot ([src/bot.py])

    ** The program

    [src/bot.py] is a Discord bot (discord.py) whose whole state lives in a
    Redis instance [r].  Members redeem tickets for rewards drawn at random
    from a depleting pool of 200 reward ids, and moderators keep a second
    balance, "shards".  Nine slash commands:
    - [/gacha] (any member): check the caller's ticket counter, DECR it,
      read the pool, draw a reward, LREM it, RPUSH [{user, reward}] to the
      history, answer and announce on the reward channel;
    - [/add-gachaticket], [/remaining-rewards], [/reset-gacha],
      [/last-winners], [/give-shards], [/remove-shards] (administrators);
    - [/rewards], [/shards] (any member).
    Each handler is a straight sequence of Redis commands followed by the
    answer; none awaits between two Redis commands, and the Redis client is
    blocking, so inside one bot process handlers never interleave.  Several
    processes (or other clients) on the same Redis do interleave, command by
    command.

    ** The development, file by file (dependency order)

    - [Prelude.v] (this file): the state-and-exception monad [SE] the
      handlers are written in ([result], [se_bind], notation [x <- c ;; k]
      in [gacha_scope]), Python's [range] ([py_range]) and the counting of
      [sum(1 for x in l if p(x))] ([count_if]), the hint databases [gacha]
      and [gacha_rw], tactics [se_unfold], [guard_cases], [zbool], and the
      list lemmas the components share.
    - [Redis.v]: the keyspace as [Store] (counters per [ckey] =
      tickets/shards of a member, the pool list, the history list of [Entry])
      and, in Module [R], the commands the code calls (GET, INCR, DECR,
      INCRBY, DECRBY, LRANGE, LREM, RPUSH, DEL) with the server's semantics:
      signed 64-bit counters that raise on overflow, LRANGE's negative
      indices and clamping, LREM by count.  A raised error aborts the
      handler with the earlier writes kept, as redis-py's [ResponseError].
    - [Discord.v]: the messages a handler sends ([Msg], one constructor per
      f-string of bot.py, with the values it interpolates) and their
      visibility ([Out]).
    - [Gacha.v] (Module [Gacha]): [gacha] = bot.py:31-55 and [add_ticket] =
      bot.py:58-62; [random_choice] is [random.choice] for a random draw
      given as an argument.
    - [Pool.v] (Module [Pool]): [reset] = bot.py:91-101, [remaining] =
      bot.py:65-88 with [summarize] (the band dict) and [py_sorted].
    - [History.v] (Module [History]): [rewards] = bot.py:104-111,
      [last_winners] = bot.py:114-124.
    - [Json.v] (Module [Json]): the history entry as the JSON text the
      code stores, [json.dumps] ([dumps_obj], [json_escape]) at bot.py:49
      and [json.loads] ([loads], [scan_string], [parse_object]) with the
      dict lookup ([py_getitem]) at bot.py:109-110 and 120-123, as Python's
      [json] module computes them on objects of strings; a Python [str] is
      its list of code points ([Json.ustr]), escaped with [\uXXXX] and
      UTF-16 surrogate pairs ([u_escape], [join_surrogates]).
    - [Render.v] (Module [Render]): the exact text of every message
      ([render]), code point for code point as the f-strings build it
      (the literals decoded from the UTF-8 of the source, [lit]), the
      history texts from the JSON strings the history list holds, and
      Discord's limit of 2000 characters ([discord_limit], counted in code
      points or in UTF-16 units, [utf16_len]).
    - [Shards.v] (Module [Shards]): [give_shards] = bot.py:127-135,
      [remove_shards] = bot.py:138-153, [shards] = bot.py:156-160.
    - [Bot.v] (Module [Bot]): the command table [Command], the
      administrator check [needs_admin] of the [has_permissions] decorators,
      [dispatch]; [reachable] is one bot process (whole handlers as steps);
      [Sys] adds ghost fields naming the current epoch (history length and
      pool at the last reset).
    - [Runs.v] (Module [Runs]): several requests in a row ([gachas]) and the
      scenarios of the specification.
    - [Concurrency.v] (Module [Conc]): handlers as command sequences
      ([prog]: [gacha_prog], [reset_prog], [remove_shards_prog]) and their
      interleaving by the store ([step_proc], [cstep], [run_sched]).
    - [Interleaving.v] (Module [Interleaving]): the six other handlers as
      command sequences, [request_prog] routing every request to its
      program, and a rely/guarantee predicate [safe] (each command keeps a
      store invariant and moves the store along a guarantee, for every
      reply).
    - [Ledger.v] (Module [Ledger]): the specification's redemption engine
      (section 4) as the interface [Ledger] (type class of the ticket, pool
      and history primitives) with its contract [LedgerLaws]; the
      coordinator [redeem] written against the interface; the Redis store
      as an instance ([store_ledger], [store_ledger_laws]); the shard
      ledger (section 4.3) as [ShardLedger] with [ShardLaws], its [give]
      and [take], and the store as its instance ([store_shards]).

    ** What is proved

    - Each handler on each branch, errors included: no ticket, empty pool,
      win ([Gacha.gacha_redeem]); refusals of non-positive amounts and of
      debits above the balance; overflow of a counter past 2^63 - 1, which
      raises with nothing written ([Shards.give_shards_overflow],
      [Gacha.add_ticket_overflow]); [/gacha] refuses exactly the members
      whose ticket counter is not positive ([Gacha.gacha_refusal]); the draw picks a pool element, each one
      for exactly one index ([Gacha.random_choice_uniform]).
    - Pool: the reset pool is [1..200] once each; right after a reset the
      summary is {5, 5, 10, 30, 150}; the bands partition [1, 200]; the
      detail is the pool sorted.
    - History: what [/last-winners n] shows for n >= 1, n = 0 (everything)
      and n < 0, and that [/rewards] shows everyone's last ten entries.
    - JSON (lemmas): [json.loads] inverts [json.dumps] on every dict of
      strings without surrogate code points, escapes and surrogate pairs
      included ([Json.loads_dumps]), and two lone surrogates in a row come
      back joined ([Json.surrogates_join]); a stored win decodes, with the
      keys the readers use, to the decimal strings of its member and reward
      ([Json.entry_json_decode]), which justifies keeping the history
      decoded in [Store].
    - Texts: the [/rewards] answer is the text decoded from the stored JSON,
      one line per entry of the last ten ([Render.rewards_text]); it always
      fits in a Discord message
      ([Render.rewards_text_fits]); a [/last-winners] answer over 59 or
      more wins does not, so it cannot be sent
      ([Render.last_winners_text_too_long]).
    - One bot process (rule induction on [reachable]): every counter stays
      in [0, 2^63 - 1], so no balance is negative; the pool stays free of
      duplicates inside [1, 200]; the history is append-only; within an epoch
      pool and draws account for the 200 rewards, none drawn twice
      ([Bot.epoch_accounting]); no member wins more often than the tickets
      they held plus the tickets granted to them
      ([Bot.wins_bounded_by_tickets]).
    - Permissions: a member without the administrator permission changes
      no counter but their own ticket counter, gets answers to [/gacha],
      [/rewards] and [/shards] only, and is refused the six administrative
      commands with the store untouched ([Bot.non_admin_request]).
    - Runs: one ticket gives exactly one win; on an empty pool each attempt
      burns a ticket; grant-then-redeem and give-then-remove scenarios.
    - The specification's coordinator, from the contract alone: a ticket is
      taken exactly when a reward is won, and pool plus history rewards are
      conserved.  Refinement ([Ledger.gacha_refines_redeem]): on the Redis
      store the code's [/gacha] gives the coordinator's answer and final
      store, except that on an empty pool it omits the refund; a whole run
      of [/gacha] on a pool with enough rewards is the coordinator's run
      ([Ledger.gachas_refine_redeems]); [/give-shards] and
      [/remove-shards] are the shard ledger's credit and debit within the
      64-bit range ([Ledger.shards_refine_ledger]).
    - Several processes: four interleavings that break the specification's guarantees: double win
      with one ticket, negative shard balance, pool duplicated by two
      resets, ticket lost to a reset in progress.
    - Any interleaving of any requests (rely/guarantee over the store): the
      pool and the history only ever hold ids in [1, 200] and the history
      is only appended to ([Interleaving.interleaved_ids_ok]).  The lemmas
      [Conc.run_sched_alone], [Conc.run_prog_gacha] and
      [Interleaving.run_prog_request] check that the command sequences are
      the atomic handlers when run alone.

    ** Bounds and abstractions

    Every handler is straight-line code, every recursion on data is
    structural (lists, strings, programs), and the interleavings are given by
    finite schedules.  The one fuel is that of [Json.parse_members]: the
    length of the text, which is enough since each member takes at least one
    character, and the round trip theorem is proved with that fuel.  Counters are [Z] with the Redis range
    [-2^63, 2^63 - 1] checked as the server checks it.  Member ids and reward
    ids are the integers whose decimal strings the code stores.  The random
    draw is a natural number reduced modulo the pool size.  Whether the
    reward channel exists is a flag of the request.

    ** Not modelled (yet)

    Startup, login and command sync ([on_ready], [bot.run]); environment
    configuration; the transport of messages to the gateway; JSON values
    other than strings, which the code never writes (the model's decoder
    refuses them).

    ** Plan for the next sittings

    1. (done: [Json.v]) History entries as JSON strings.
    2. (partly done: [Ledger.v]) The shard ledger and whole runs of
       [/gacha] are refined; left: the history queries ([recent(n)],
       [lastWinners(n)]) in the interface, with [/last-winners] and
       [/rewards] against them, and runs mixing every command.
    3. (done: [Interleaving.v]) The remaining handlers as command
       sequences, and the invariants that survive any interleaving.
    4. The store commands as an interface the handlers are written against,
       with Redis as its implementation. *)

From stdpp Require Export base list gmap sorting.
From Stdlib Require Export ZArith Lia.

Declare Scope gacha_scope.
Delimit Scope gacha_scope with gacha.
Open Scope Z_scope.

(** ** Results of a computation that may raise

    A handler of the bot runs Redis commands one after the other; a command
    that fails raises [redis.ResponseError] in Python, which aborts the
    handler while the writes already done stay in the store.  [result] is the
    outcome of one such computation and [SE] threads the store through it. *)

Inductive result (E A : Type) : Type :=
| Ok (a : A)
| Raise (e : E).
Arguments Ok {E A} a.
Arguments Raise {E A} e.

Definition SE (S E A : Type) : Type := S -> result E A * S.

Definition se_ret {S E A} (a : A) : SE S E A := fun s => (Ok a, s).

Definition se_bind {S E A B} (c : SE S E A) (f : A -> SE S E B) : SE S E B :=
  fun s =>
    match c s with
    | (Ok a, s') => f a s'
    | (Raise e, s') => (Raise e, s')
    end.

Notation "x <- c ;; k" := (se_bind c (fun x => k))
  (at level 60, c at next level, right associativity) : gacha_scope.
Notation "c ;;; k" := (se_bind c (fun _ => k))
  (at level 60, right associativity) : gacha_scope.

Open Scope gacha_scope.

(** The two components of a run. *)
Definition outcome {S E A} (r : result E A * S) : result E A := fst r.
Definition final {S E A} (r : result E A * S) : S := snd r.

(** ** Monad laws (pointwise in the initial store) *)

Section MonadLaws.
Context {S E : Type}.

Lemma se_bind_ret_l {A B} (a : A) (f : A -> SE S E B) s :
  se_bind (se_ret a) f s = f a s.
Proof. reflexivity. Qed.

Lemma se_bind_ret_r {A} (c : SE S E A) s :
  se_bind c se_ret s = c s.
Proof. unfold se_bind, se_ret. by destruct (c s) as [[] ?]. Qed.

Lemma se_bind_assoc {A B C} (c : SE S E A) (f : A -> SE S E B) (g : B -> SE S E C) s :
  se_bind (se_bind c f) g s = se_bind c (fun a => se_bind (f a) g) s.
Proof. unfold se_bind. by destruct (c s) as [[] ?]. Qed.

(** Running a bound computation, when the first part returns [Ok]. *)
Lemma se_bind_ok {A B} (c : SE S E A) (f : A -> SE S E B) s a s' :
  c s = (Ok a, s') -> se_bind c f s = f a s'.
Proof. unfold se_bind. by intros ->. Qed.

Lemma se_bind_raise {A B} (c : SE S E A) (f : A -> SE S E B) s e s' :
  c s = (Raise e, s') -> se_bind c f s = (Raise e, s').
Proof. unfold se_bind. by intros ->. Qed.
End MonadLaws.

(** ** Python's [range] and list helpers *)

(** [py_range a b] is Python's [range(a, b)] on integers: [a, a+1, ..., b-1]. *)
Definition py_range (a b : Z) : list Z :=
  map (fun i => a + Z.of_nat i) (seq 0 (Z.to_nat (b - a))).

(** Number of elements of [l] satisfying the boolean test [p]: Python's
    [sum(1 for x in l if p(x))]. *)
Definition count_if {A} (p : A -> bool) (l : list A) : nat :=
  length (filter (fun x => p x = true) l).

(** ** Automation *)

Create HintDb gacha discriminated.
#[export] Hint Constants Transparent : gacha.
Create Rewrite HintDb gacha_rw.

#[export] Hint Rewrite @se_bind_ret_l @se_bind_assoc : gacha_rw.

(** Unfold one layer of the store monad. *)
Ltac se_unfold := unfold se_bind, se_ret, outcome, final in *.

(** Case analysis on the boolean guards of the code ([if a <=? b then ...]),
    turning them into hypotheses [lia] can use. *)
Ltac guard_cases :=
  match goal with
  | |- context [if ?b then _ else _] =>
      let E := fresh "Eg" in destruct b eqn:E
  | H : context [if ?b then _ else _] |- _ =>
      let E := fresh "Eg" in destruct b eqn:E
  end.

Ltac zbool :=
  repeat match goal with
  | H : (_ <=? _) = true |- _ => apply Z.leb_le in H
  | H : (_ <=? _) = false |- _ => apply Z.leb_gt in H
  | H : (_ <? _) = true |- _ => apply Z.ltb_lt in H
  | H : (_ <? _) = false |- _ => apply Z.ltb_ge in H
  | H : (_ =? _) = true |- _ => apply Z.eqb_eq in H
  | H : (_ =? _) = false |- _ => apply Z.eqb_neq in H
  | H : (_ && _) = true |- _ => apply andb_true_iff in H as [? ?]
  | H : (_ && _) = false |- _ => apply andb_false_iff in H as [? | ?]
  | H : ~ (_ = true) |- _ => apply not_true_is_false in H
  end.

(** ** Generic list lemmas shared by the components *)

Lemma length_py_range a b : length (py_range a b) = Z.to_nat (b - a).
Proof. unfold py_range. by rewrite length_map, length_seq. Qed.

Lemma elem_of_py_range x a b : x ∈ py_range a b <-> a <= x < b.
Proof.
  unfold py_range. rewrite list_elem_of_fmap. split.
  - intros (i & -> & Hi). apply list_elem_of_In, in_seq in Hi. lia.
  - intros Hx. exists (Z.to_nat (x - a)). split; [lia|].
    apply list_elem_of_In, in_seq. lia.
Qed.

Lemma map_seq_shift {A} (f : nat -> A) n m :
  map f (seq n m) = map (fun i => f (n + i)%nat) (seq 0 m).
Proof.
  revert f. induction n as [|n IH]; intros f; [done|].
  rewrite <- seq_shift, map_map, IH. apply map_ext. intros i. done.
Qed.

Lemma py_range_split a b c :
  a <= b <= c -> py_range a c = py_range a b ++ py_range b c.
Proof.
  intros Hab. unfold py_range.
  replace (Z.to_nat (c - a)) with (Z.to_nat (b - a) + Z.to_nat (c - b))%nat by lia.
  rewrite seq_app, map_app, (map_seq_shift _ (0 + _)). f_equal.
  apply map_ext. intros i. lia.
Qed.

Lemma NoDup_py_range a b : NoDup (py_range a b).
Proof.
  unfold py_range. apply NoDup_fmap_2; [intros i j ?; lia|]. apply NoDup_seq.
Qed.

Lemma count_if_app {A} (p : A -> bool) l1 l2 :
  count_if p (l1 ++ l2) = (count_if p l1 + count_if p l2)%nat.
Proof. unfold count_if. by rewrite filter_app, length_app. Qed.

Lemma count_if_cons {A} (p : A -> bool) x l :
  count_if p (x :: l) = ((if p x then 1 else 0) + count_if p l)%nat.
Proof.
  unfold count_if. rewrite filter_cons.
  destruct (p x) eqn:E; case_decide; simpl; congruence.
Qed.

Lemma count_if_nil {A} (p : A -> bool) : count_if p [] = 0%nat.
Proof. reflexivity. Qed.

Lemma count_if_Permutation {A} (p : A -> bool) l1 l2 :
  l1 ≡ₚ l2 -> count_if p l1 = count_if p l2.
Proof. intros HP. unfold count_if. by rewrite HP. Qed.

#[export] Hint Resolve NoDup_py_range : gacha.
#[export] Hint Rewrite length_py_range @count_if_app @count_if_cons @count_if_nil : gacha_rw.
