(* ===== verification/Redis.v ===== *)
(** * The Redis store the bot keeps its state in

    [src/bot.py] holds no state of its own: every handler reads and writes
    the Redis instance [r] (line 13).  The keys it uses are
    - ["tickets:<id>"] and ["shards:<id>"]: integer counters per member,
      written only by INCR, DECR, INCRBY and DECRBY;
    - ["rewards:remaining"]: the list of reward ids still in the pool;
    - ["rewards:history"]: the list of JSON-encoded [{user, reward}] entries.
    [Store] is that keyspace: the counters as a finite map from [ckey] (which
    key family, which member) to their value, and the two lists.  A history
    entry is kept decoded as an [Entry]; its JSON encoding is modelled in
    [Json.v].  Reward ids and member ids are the integers whose decimal
    strings the code stores.

    Module [R] gives the Redis commands the code calls, with the semantics of
    the Redis server: counters are signed 64-bit and a command whose result
    would leave that range fails with an error (which redis-py raises as
    [ResponseError]); LRANGE converts negative indices and clamps; LREM with a
    positive count removes the first occurrences; RPUSH appends; DEL empties.
    These follow the Redis documentation (the server is not part of the
    repository). *)

From S2P Require Import Prelude.

(** ** The keyspace *)

(** A history entry: [{"user": user_id, "reward": reward}] (bot.py:49). *)
Record Entry := mkEntry { e_user : Z; e_reward : Z }.

#[export] Instance Entry_eq_dec : EqDecision Entry.
Proof. intros [u1 r1] [u2 r2]. unfold Decision. decide equality; apply Z.eq_dec. Defined.

(** The integer-valued keys: [f"tickets:{id}"] and [f"shards:{id}"]. *)
Inductive ckey :=
| KTickets (u : Z)
| KShards (u : Z).

#[export] Instance ckey_eq_dec : EqDecision ckey.
Proof. solve_decision. Defined.

#[export] Instance ckey_countable : Countable ckey.
Proof.
  apply (inj_countable' (fun k => match k with KTickets u => inl u | KShards u => inr u end)
                        (fun x => match x with inl u => KTickets u | inr u => KShards u end)).
  by intros [].
Defined.

Record Store := mkStore {
  counters : gmap ckey Z;
  remaining : list Z;
  history : list Entry
}.

Inductive redis_error :=
| ErrNotInteger   (** "value is not an integer or out of range" *)
| ErrOverflow.    (** "increment or decrement would overflow" *)

#[export] Instance redis_error_eq_dec : EqDecision redis_error.
Proof. solve_decision. Defined.

Abbreviation RM A := (SE Store redis_error A).

(** ** Signed 64-bit integers of the Redis server *)

Definition i64_min : Z := - 2 ^ 63.
Definition i64_max : Z := 2 ^ 63 - 1.
Definition in_i64 (z : Z) : bool := (i64_min <=? z) && (z <=? i64_max).

(** ** Pure list operations behind the list commands *)

(** LRANGE: negative indices count from the end; the start is clamped at 0,
    the stop at the last index; an empty range gives the empty list. *)
Definition lrange_list {A} (l : list A) (start stop : Z) : list A :=
  let n := Z.of_nat (length l) in
  let start := if start <? 0 then n + start else start in
  let stop := if stop <? 0 then n + stop else stop in
  let start := if start <? 0 then 0 else start in
  if (stop <? start) || (n <=? start) then []
  else
    let stop := if n <=? stop then n - 1 else stop in
    take (Z.to_nat (stop - start + 1)) (drop (Z.to_nat start) l).

(** LREM with count [n > 0]: remove the first [n] elements equal to [v],
    scanning from the head; returns the list and the number removed. *)
Fixpoint lrem_head {A} `{EqDecision A} (n : nat) (v : A) (l : list A) : list A * nat :=
  match n, l with
  | O, _ => (l, O)
  | _, [] => ([], O)
  | S n', x :: l' =>
      if decide (x = v) then
        let '(r, k) := lrem_head n' v l' in (r, S k)
      else
        let '(r, k) := lrem_head n v l' in (x :: r, k)
  end.

(** LREM [count]: from the head when [count > 0], from the tail when
    [count < 0], every occurrence when [count = 0]. *)
Definition lrem_list {A} `{EqDecision A} (count : Z) (v : A) (l : list A) : list A * nat :=
  if 0 <? count then lrem_head (Z.to_nat count) v l
  else if count <? 0 then
    let '(r, k) := lrem_head (Z.to_nat (- count)) v (reverse l) in (reverse r, k)
  else
    let r := filter (fun x => x ≠ v) l in (r, (length l - length r)%nat).

(** ** The commands *)

(** A list-valued key, as the field of the store it names. *)
Record lkey (A : Type) := LKey {
  lget : Store -> list A;
  lset : list A -> Store -> Store
}.
Arguments lget {A} _ _.
Arguments lset {A} _ _ _.

Definition KRemaining : lkey Z :=
  LKey _ remaining (fun l s => mkStore (counters s) l (history s)).
Definition KHistory : lkey Entry :=
  LKey _ history (fun l s => mkStore (counters s) (remaining s) l).

Definition set_counter (k : ckey) (v : Z) (s : Store) : Store :=
  mkStore (<[k := v]> (counters s)) (remaining s) (history s).

(** The value of a counter, with a missing key read as 0: the code's
    [int(r.get(key) or 0)]. *)
Definition counter (s : Store) (k : ckey) : Z := default 0 (counters s !! k).

Module R.
(** GET *)
Definition get (k : ckey) : RM (option Z) := fun s => (Ok (counters s !! k), s).

(** INCRBY: the increment must be a 64-bit integer and so must the result;
    a missing key counts as 0. *)
Definition incrby (k : ckey) (d : Z) : RM Z := fun s =>
  if negb (in_i64 d) then (Raise ErrNotInteger, s)
  else
    let v := counter s k + d in
    if in_i64 v then (Ok v, set_counter k v s) else (Raise ErrOverflow, s).

Definition incr (k : ckey) : RM Z := incrby k 1.
Definition decr (k : ckey) : RM Z := incrby k (-1).

(** DECRBY refuses the one decrement whose negation is not a 64-bit
    integer before it increments by the negation. *)
Definition decrby (k : ckey) (d : Z) : RM Z := fun s =>
  if negb (in_i64 d) then (Raise ErrNotInteger, s)
  else if d =? i64_min then (Raise ErrOverflow, s)
  else incrby k (- d) s.

Definition lrange {A} (k : lkey A) (start stop : Z) : RM (list A) := fun s =>
  (Ok (lrange_list (lget k s) start stop), s).

(** LREM returns the number of elements removed. *)
Definition lrem {A} `{EqDecision A} (k : lkey A) (count : Z) (v : A) : RM Z := fun s =>
  let '(l', n) := lrem_list count v (lget k s) in (Ok (Z.of_nat n), lset k l' s).

(** RPUSH returns the new length of the list. *)
Definition rpush {A} (k : lkey A) (vs : list A) : RM Z := fun s =>
  let l' := lget k s ++ vs in (Ok (Z.of_nat (length l')), lset k l' s).

(** DEL returns the number of keys removed (an empty list is no key). *)
Definition delete {A} (k : lkey A) : RM Z := fun s =>
  (Ok (if lget k s is [] then 0 else 1), lset k [] s).
End R.

(** ** Lemmas on the commands *)

Lemma counter_set_counter_eq s k v : counter (set_counter k v s) k = v.
Proof. unfold counter, set_counter. simpl. by rewrite lookup_insert_eq. Qed.

Lemma counter_set_counter_ne s k k' v :
  k <> k' -> counter (set_counter k v s) k' = counter s k'.
Proof. intros Hne. unfold counter, set_counter. simpl. by rewrite lookup_insert_ne. Qed.

Lemma counter_insert_eq c l h k v : counter (mkStore (<[k := v]> c) l h) k = v.
Proof. unfold counter. simpl. by rewrite lookup_insert_eq. Qed.

#[export] Hint Rewrite counter_set_counter_eq counter_insert_eq : gacha_rw.

Lemma in_i64_spec z : in_i64 z = true <-> i64_min <= z <= i64_max.
Proof. unfold in_i64. rewrite andb_true_iff, !Z.leb_le. done. Qed.

(** INCRBY on the success path and on the overflow path. *)
Lemma incrby_ok k d s :
  i64_min <= d <= i64_max -> i64_min <= counter s k + d <= i64_max ->
  R.incrby k d s = (Ok (counter s k + d), set_counter k (counter s k + d) s).
Proof.
  intros Hd Hv. unfold R.incrby.
  apply in_i64_spec in Hd, Hv. by rewrite Hd, Hv.
Qed.

Lemma incrby_overflow k d s :
  i64_min <= d <= i64_max -> ~ (i64_min <= counter s k + d <= i64_max) ->
  R.incrby k d s = (Raise ErrOverflow, s).
Proof.
  intros Hd Hv. unfold R.incrby. apply in_i64_spec in Hd. rewrite Hd.
  destruct (in_i64 (counter s k + d)) eqn:E; [apply in_i64_spec in E; contradiction | done].
Qed.

(** LRANGE with a stop of -1 returns a suffix of the list: the last [k]
    elements when [k > 0], and the list without its first [-k] elements when
    [k <= 0] (in particular the whole list when [k = 0]). *)
Lemma lrange_list_suffix {A} (l : list A) k :
  lrange_list l (- k) (-1) =
  drop (if 0 <? k then (length l - Z.to_nat k)%nat else Z.to_nat (- k)) l.
Proof.
  unfold lrange_list. repeat guard_cases; simpl in *; zbool.
  all: try (rewrite drop_ge; [done | lia]); try lia.
  all: rewrite take_ge; rewrite ?length_drop; try lia; f_equal; lia.
Qed.

Lemma lrange_list_all {A} (l : list A) : lrange_list l 0 (-1) = l.
Proof. apply (lrange_list_suffix l 0). Qed.

(** LREM with count 1 removes the first occurrence of [v], if any. *)
Lemma lrem_head_1_split {A} `{EqDecision A} (l1 l2 : list A) v :
  v ∉ l1 -> lrem_head 1 v (l1 ++ v :: l2) = (l1 ++ l2, 1%nat).
Proof.
  induction l1 as [|x l1 IH]; intros Hv; simpl.
  - destruct (decide (v = v)); [by destruct l2 | congruence].
  - destruct (decide (x = v)); [set_solver|]. rewrite IH by set_solver. done.
Qed.

Lemma lrem_head_1_absent {A} `{EqDecision A} (l : list A) v :
  v ∉ l -> lrem_head 1 v l = (l, 0%nat).
Proof.
  induction l as [|x l IH]; intros Hv; simpl; [done|].
  destruct (decide (x = v)); [set_solver|]. rewrite IH by set_solver. done.
Qed.

Lemma lrem_list_1_elem {A} `{EqDecision A} (l : list A) v :
  v ∈ l ->
  exists l1 l2, l = l1 ++ v :: l2 /\ (v ∉ l1) /\ lrem_list 1 v l = (l1 ++ l2, 1%nat).
Proof.
  intros Hv. apply list_elem_of_split_l in Hv as (l1 & l2 & -> & Hn).
  exists l1, l2. split; [done|]. split; [done|].
  apply lrem_head_1_split, Hn.
Qed.

(** Removing the first occurrence leaves a list that, with [v] put back,
    is a permutation of the original. *)
Lemma lrem_list_1_perm {A} `{EqDecision A} (l : list A) v :
  v ∈ l -> l ≡ₚ v :: fst (lrem_list 1 v l) /\ snd (lrem_list 1 v l) = 1%nat.
Proof.
  intros Hv. destruct (lrem_list_1_elem l v Hv) as (l1 & l2 & -> & _ & ->).
  simpl. split; [|done]. by rewrite Permutation_middle.
Qed.
