(* ===== verification/Discord.v ===== *)
(** * What a handler sends back through the Discord gateway

    Each slash command of [src/bot.py] ends by answering the interaction
    ([interaction.response.send_message(text, ephemeral=...)]); [/gacha]
    also posts to the reward channel ([channel.send(text)]).  [Msg] is the
    content of each message the code can send, one constructor per f-string,
    with the values the string interpolates; Render.v gives the text itself.
    [Out] is one sent message with its visibility. *)

From S2P Require Import Prelude Redis.

(** The band counts of [/remaining-rewards] (bot.py:73-79), in the order of
    the Python dict. *)
Record Bands := mkBands {
  band_1_5 : nat;
  band_6_10 : nat;
  band_11_20 : nat;
  band_21_50 : nat;
  band_51_200 : nat
}.

Inductive Msg :=
| MsgNoTicket                            (** bot.py:38 *)
| MsgNoRewardsLeft                       (** bot.py:45 *)
| MsgCongrats (user reward : Z)          (** bot.py:51 *)
| MsgJustWon (user reward : Z)           (** bot.py:55, to the reward channel *)
| MsgTicketAdded (member : Z)            (** bot.py:62 *)
| MsgPoolEmpty                           (** bot.py:70 *)
| MsgRemaining (b : Bands) (detail : option (list Z))   (** bot.py:81-88 *)
| MsgResetDone                           (** bot.py:101 *)
| MsgNoHistory                           (** bot.py:108 *)
| MsgHistory (es : list Entry)           (** bot.py:110-111 *)
| MsgNoWinners                           (** bot.py:119 *)
| MsgWinners (es : list Entry)           (** bot.py:121-124 *)
| MsgAmountNotPositive                   (** bot.py:131, 142 *)
| MsgShardsGiven (amount member total : Z)                (** bot.py:135 *)
| MsgShardsTooFew (member current amount : Z)             (** bot.py:147 *)
| MsgShardsRemoved (amount member total : Z)              (** bot.py:153 *)
| MsgShardTotal (total : Z).                              (** bot.py:160 *)

Inductive Out :=
| Respond (m : Msg) (ephemeral : bool)   (** interaction.response.send_message *)
| Announce (m : Msg).                    (** channel.send on the reward channel *)

(** A handler: Redis commands ending in the messages sent. *)
Abbreviation Handler := (RM (list Out)).
