(* ===== verification/Gacha.v ===== *)
(** * Redemption: [/gacha] and [/add-gachaticket]

    [gacha] is the handler of bot.py:31-55, step for step: read the caller's
    ticket counter, refuse when it is not positive, DECR it, read the whole
    pool, stop when the pool is empty, draw a reward at random, LREM it,
    RPUSH the history entry, answer and announce.  [add_ticket] is
    bot.py:58-62.  The random draw is an argument: [random.choice(rewards)]
    returns [rewards[i]] for an index [i] below [len(rewards)]; [k mod n]
    ranges over exactly those indices as [k] ranges over the naturals.

    The theorems give the result of each handler on each branch, errors
    included, and show that a draw picks an element of the pool, each one
    for exactly one index. *)

From S2P Require Import Prelude Redis Discord.

Module Gacha.

(** [random.choice(seq)] for the random draw [k]. *)
Definition random_choice (k : nat) (l : list Z) : Z :=
  nth (k mod length l) l 0.

(** bot.py:31-55; [chan] is whether [bot.get_channel(REWARD_CHANNEL)]
    found the reward channel. *)
Definition gacha (chan : bool) (k : nat) (user_id : Z) : Handler :=
  t <- R.get (KTickets user_id) ;;
  let tickets := default 0 t in
  if tickets <=? 0 then se_ret [Respond MsgNoTicket true]
  else
    R.decr (KTickets user_id) ;;;
    rewards <- R.lrange KRemaining 0 (-1) ;;
    match rewards with
    | [] => se_ret [Respond MsgNoRewardsLeft false]
    | _ =>
        let reward := random_choice k rewards in
        R.lrem KRemaining 1 reward ;;;
        R.rpush KHistory [mkEntry user_id reward] ;;;
        se_ret (Respond (MsgCongrats user_id reward) false ::
                if chan then [Announce (MsgJustWon user_id reward)] else [])
    end.

(** bot.py:58-62 *)
Definition add_ticket (member : Z) : Handler :=
  R.incr (KTickets member) ;;;
  se_ret [Respond (MsgTicketAdded member) false].

(** ** The random draw *)

Lemma random_choice_lookup k l :
  l <> [] -> l !! (k mod length l)%nat = Some (random_choice k l).
Proof.
  intros Hl. unfold random_choice.
  destruct (nth_lookup_or_length l (k mod length l) 0) as [H|H]; [done|].
  exfalso. pose proof (Nat.mod_upper_bound k (length l)).
  destruct l; simpl in *; [done | lia].
Qed.

Lemma random_choice_elem k l : l <> [] -> random_choice k l ∈ l.
Proof. intros Hl. eapply list_elem_of_lookup_2, random_choice_lookup, Hl. Qed.

(** C17:      Each element of a pool without duplicates is drawn for exactly one
    residue of the random draw modulo the size of the pool. *)
Lemma random_choice_uniform l x :
  NoDup l -> x ∈ l ->
  exists i, (i < length l)%nat /\
    forall k, random_choice k l = x <-> (k mod length l)%nat = i.
Proof.
  intros Hnd Hx. apply list_elem_of_lookup in Hx as [i Hi].
  exists i. split; [by eapply lookup_lt_Some|].
  assert (Hl : l <> []) by (by destruct l).
  intros k. pose proof (random_choice_lookup k l Hl) as Hk. split.
  - intros <-. by eapply NoDup_lookup.
  - intros Heq. rewrite Heq in Hk. congruence.
Qed.

(** ** The branches of [gacha] *)

Section Branches.
Context (chan : bool) (k : nat) (u : Z) (s : Store).

(** No ticket: nothing is written and the refusal is private. *)
Lemma gacha_no_ticket :
  counter s (KTickets u) <= 0 ->
  gacha chan k u s = (Ok [Respond MsgNoTicket true], s).
Proof.
  intros Ht. unfold gacha, counter in *. se_unfold. simpl.
  by rewrite (proj2 (Z.leb_le _ _) Ht).
Qed.

Context (Hpos : 0 < counter s (KTickets u) <= i64_max).

Lemma gacha_decr :
  R.decr (KTickets u) s =
    (Ok (counter s (KTickets u) - 1), set_counter (KTickets u) (counter s (KTickets u) - 1) s).
Proof. unfold R.decr. rewrite incrby_ok; unfold i64_min, i64_max in *; [done|lia|lia]. Qed.

Lemma gacha_enter :
  gacha chan k u s =
    (rewards <- R.lrange KRemaining 0 (-1) ;;
     match rewards with
     | [] => se_ret [Respond MsgNoRewardsLeft false]
     | _ =>
         let reward := random_choice k rewards in
         R.lrem KRemaining 1 reward ;;;
         R.rpush KHistory [mkEntry u reward] ;;;
         se_ret (Respond (MsgCongrats u reward) false ::
                 if chan then [Announce (MsgJustWon u reward)] else [])
     end) (set_counter (KTickets u) (counter s (KTickets u) - 1) s).
Proof.
  unfold gacha at 1. unfold se_bind at 1. simpl.
  replace (default 0 (counters s !! KTickets u) <=? 0) with false
    by (symmetry; apply Z.leb_gt; unfold counter in Hpos; lia).
  unfold se_bind at 1. by rewrite gacha_decr.
Qed.

(** Empty pool: the ticket has been consumed and is not given back; no
    reward, no history entry. *)
Lemma gacha_empty_pool :
  remaining s = [] ->
  gacha chan k u s =
    (Ok [Respond MsgNoRewardsLeft false],
     set_counter (KTickets u) (counter s (KTickets u) - 1) s).
Proof. intros Hr. rewrite gacha_enter. se_unfold. simpl. by rewrite Hr. Qed.

(** A win: the ticket counter goes down by one, the drawn reward is the
    element [random_choice k] of the pool, its first occurrence is removed
    from the pool, and the entry [{u, reward}] is appended to the history. *)
Lemma gacha_win :
  remaining s <> [] ->
  let r := random_choice k (remaining s) in
  gacha chan k u s =
    (Ok (Respond (MsgCongrats u r) false ::
         if chan then [Announce (MsgJustWon u r)] else []),
     mkStore (<[KTickets u := counter s (KTickets u) - 1]> (counters s))
             (fst (lrem_list 1 r (remaining s)))
             (history s ++ [mkEntry u r])).
Proof.
  intros Hr r. rewrite gacha_enter. se_unfold.
  unfold R.lrange. simpl. rewrite lrange_list_all.
  destruct (remaining s) as [|x l] eqn:E; [done|].
  unfold R.lrem, R.rpush. simpl. subst r. rewrite E.
  by destruct (lrem_list 1 _ (x :: l)).
Qed.
End Branches.

(** C2:      A successful redemption, in terms of what the ledger promises: the
    member had a ticket and the pool a reward; the reward won was in the
    pool and only that one copy left it; the member has one ticket fewer
    and no other counter changed; the history gained exactly the entry
    [{u, reward}]; the answer congratulates [u] on that reward. *)
Theorem gacha_redeem chan k u s :
  0 < counter s (KTickets u) <= i64_max -> remaining s <> [] ->
  exists r outs s',
    gacha chan k u s = (Ok outs, s') /\
    head outs = Some (Respond (MsgCongrats u r) false) /\
    r ∈ remaining s /\ remaining s ≡ₚ r :: remaining s' /\
    history s' = history s ++ [mkEntry u r] /\
    counter s' (KTickets u) = counter s (KTickets u) - 1 /\
    (forall k', k' <> KTickets u -> counter s' k' = counter s k').
Proof.
  intros Ht Hr. rewrite gacha_win by done.
  set (r := random_choice k (remaining s)).
  assert (Hin : r ∈ remaining s) by (by apply random_choice_elem).
  eexists r, _, _. split; [reflexivity|]. simpl.
  split_and!; [done | done | apply (lrem_list_1_perm _ _ Hin) | done | |].
  - apply counter_insert_eq.
  - intros k' Hk. unfold counter. simpl. by rewrite lookup_insert_ne.
Qed.

(** C4:      On an empty pool [/gacha] answers "no rewards left" but keeps the
    ticket it has already consumed: the counter ends one lower, the pool and
    the history are unchanged. *)
Theorem gacha_empty_pool_loses_ticket chan k u s :
  0 < counter s (KTickets u) <= i64_max -> remaining s = [] ->
  exists s', gacha chan k u s = (Ok [Respond MsgNoRewardsLeft false], s') /\
    counter s' (KTickets u) = counter s (KTickets u) - 1 /\
    remaining s' = [] /\ history s' = history s.
Proof.
  intros Ht Hr. rewrite gacha_empty_pool by done.
  eexists. split; [reflexivity|]. by rewrite counter_set_counter_eq.
Qed.

(** C16:  [/gacha] refuses exactly the members whose ticket counter is not
    positive: on a store whose counter is a Redis integer, it answers the
    private "no ticket" message and writes nothing if and only if the
    counter is at most 0; with one ticket or more it goes on to the draw. *)
Theorem gacha_refusal chan k u s :
  counter s (KTickets u) <= i64_max ->
  gacha chan k u s = (Ok [Respond MsgNoTicket true], s) <-> counter s (KTickets u) <= 0.
Proof.
  intros Hmax. split; [|apply gacha_no_ticket].
  intros Hg. destruct (Z_le_gt_dec (counter s (KTickets u)) 0) as [|H0]; [done|]. exfalso.
  destruct (remaining s) eqn:E.
  - rewrite gacha_empty_pool in Hg by (done || lia). congruence.
  - rewrite gacha_win in Hg by (rewrite ?E; done || lia). congruence.
Qed.

(** ** [/add-gachaticket] *)

Lemma add_ticket_ok m s :
  i64_min <= counter s (KTickets m) < i64_max ->
  add_ticket m s =
    (Ok [Respond (MsgTicketAdded m) false],
     set_counter (KTickets m) (counter s (KTickets m) + 1) s).
Proof.
  intros Hc. unfold add_ticket, R.incr. se_unfold.
  rewrite incrby_ok; unfold i64_min, i64_max in *; [done | lia | lia].
Qed.

(** C34:      At the top of the 64-bit range INCR fails: the handler raises and
    nothing is written. *)
Lemma add_ticket_overflow m s :
  counter s (KTickets m) = i64_max ->
  add_ticket m s = (Raise ErrOverflow, s).
Proof.
  intros Hc. unfold add_ticket, R.incr. se_unfold.
  rewrite incrby_overflow; unfold i64_min, i64_max in *; [done | lia | lia].
Qed.

(** ** Witnesses *)

Definition w_store : Store := mkStore {[KTickets 7 := 1]} [3; 5] [].

Lemma gacha_redeem_witness :
  (0 < counter w_store (KTickets 7) <= i64_max /\ remaining w_store <> []) /\
  exists r outs s',
    gacha true 1 7 w_store = (Ok outs, s') /\
    head outs = Some (Respond (MsgCongrats 7 r) false) /\
    r ∈ remaining w_store /\ remaining w_store ≡ₚ r :: remaining s' /\
    history s' = history w_store ++ [mkEntry 7 r] /\
    counter s' (KTickets 7) = counter w_store (KTickets 7) - 1 /\
    (forall k', k' <> KTickets 7 -> counter s' k' = counter w_store k').
Proof.
  assert (H : 0 < counter w_store (KTickets 7) <= i64_max /\ remaining w_store <> [])
    by (split; [vm_compute; split; congruence | discriminate]).
  split; [exact H|]. exact (gacha_redeem true 1 7 w_store (proj1 H) (proj2 H)).
Defined.

Lemma gacha_empty_pool_loses_ticket_witness :
  exists s', gacha false 0 7 (mkStore {[KTickets 7 := 2]} [] []) =
               (Ok [Respond MsgNoRewardsLeft false], s') /\
    counter s' (KTickets 7) = counter (mkStore {[KTickets 7 := 2]} [] []) (KTickets 7) - 1 /\
    remaining s' = [] /\ history s' = history (mkStore {[KTickets 7 := 2]} [] []).
Proof.
  apply gacha_empty_pool_loses_ticket; [vm_compute; split; congruence | reflexivity].
Defined.

Lemma gacha_refusal_witness :
  counter w_store (KTickets 7) <= i64_max /\
  (gacha true 4 7 w_store = (Ok [Respond MsgNoTicket true], w_store) <-> counter w_store (KTickets 7) <= 0).
Proof.
  assert (H : counter w_store (KTickets 7) <= i64_max) by (vm_compute; discriminate).
  split; [exact H | apply (gacha_refusal true 4 7 w_store H)].
Defined.

Lemma random_choice_uniform_witness :
  exists i, (i < length [3%Z; 5%Z; 8%Z])%nat /\
    forall k, random_choice k [3; 5; 8] = 5 <-> (k mod length [3%Z; 5%Z; 8%Z])%nat = i.
Proof.
  apply random_choice_uniform; apply (bool_decide_unpack _); vm_compute; reflexivity.
Defined.

Lemma add_ticket_overflow_witness :
  add_ticket 7 (mkStore {[KTickets 7 := i64_max]} [] []) =
  (Raise ErrOverflow, mkStore {[KTickets 7 := i64_max]} [] []).
Proof. apply add_ticket_overflow. reflexivity. Defined.

End Gacha.
