(* ===== verification/Pool.v ===== *)
(** * The reward pool: [/reset-gacha] and [/remaining-rewards]

    [reset] is bot.py:93-101: DEL the pool, then RPUSH the 200 reward ids
    built from five Python ranges.  [remaining] is bot.py:67-88: read the
    pool, answer "no rewards left" when it is empty, otherwise count the
    ids in each of the five bands and, when at most ten are left, list them
    sorted.  Python's [sorted] is modelled by stdpp's merge sort; on
    integers every sort gives the same list ([py_sorted_unique]).

    The theorems: the reset pool is exactly [1..200] without duplicates,
    reset leaves the counters and the history alone, the summary right after
    a reset is the band histogram {5, 5, 10, 30, 150}, the bands partition
    any pool of ids in [1, 200], and the detail is the pool sorted. *)

From S2P Require Import Prelude Redis Discord.

Module Pool.

(** bot.py:95-99 *)
Definition initial_rewards : list Z :=
  [1; 2; 3; 4; 5] ++ py_range 6 11 ++ py_range 11 21 ++ py_range 21 51 ++ py_range 51 201.

(** bot.py:93-101 *)
Definition reset : Handler :=
  R.delete KRemaining ;;;
  R.rpush KRemaining initial_rewards ;;;
  se_ret [Respond MsgResetDone false].

(** [lo <= x <= hi] *)
Definition in_band (lo hi x : Z) : bool := (lo <=? x) && (x <=? hi).

(** The dict [summary] of bot.py:73-79. *)
Definition summarize (rewards_int : list Z) : Bands :=
  mkBands (count_if (in_band 1 5) rewards_int)
          (count_if (in_band 6 10) rewards_int)
          (count_if (in_band 11 20) rewards_int)
          (count_if (in_band 21 50) rewards_int)
          (count_if (in_band 51 200) rewards_int).

(** Python's [sorted] on a list of integers. *)
Definition py_sorted (l : list Z) : list Z := merge_sort Z.le l.

(** bot.py:67-88 *)
Definition remaining : Handler :=
  rewards <- R.lrange KRemaining 0 (-1) ;;
  match rewards with
  | [] => se_ret [Respond MsgPoolEmpty false]
  | _ =>
      let detail := if (length rewards <=? 10)%nat then Some (py_sorted rewards) else None in
      se_ret [Respond (MsgRemaining (summarize rewards) detail) false]
  end.

(** The total of the band counts. *)
Definition bands_total (b : Bands) : nat :=
  band_1_5 b + band_6_10 b + band_11_20 b + band_21_50 b + band_51_200 b.

(** ** The reset pool *)

Lemma initial_rewards_range : initial_rewards = py_range 1 201.
Proof.
  rewrite (py_range_split 1 6 201), (py_range_split 6 11 201), (py_range_split 11 21 201),
    (py_range_split 21 51 201) by lia.
  reflexivity.
Qed.

Lemma initial_rewards_NoDup : NoDup initial_rewards.
Proof. rewrite initial_rewards_range. apply NoDup_py_range. Qed.

Lemma elem_of_initial_rewards x : x ∈ initial_rewards <-> 1 <= x <= 200.
Proof. rewrite initial_rewards_range, elem_of_py_range. lia. Qed.

Lemma length_initial_rewards : length initial_rewards = 200%nat.
Proof. by rewrite initial_rewards_range, length_py_range. Qed.

(** ** The summary *)

Lemma py_sorted_Sorted l : Sorted Z.le (py_sorted l).
Proof. apply (Sorted_merge_sort Z.le). Qed.

Lemma py_sorted_Permutation l : py_sorted l ≡ₚ l.
Proof. apply merge_sort_Permutation. Qed.

(** Any sorted permutation of [l] is [py_sorted l]: the model of [sorted]
    does not depend on the sorting algorithm. *)
Lemma py_sorted_unique l l' : Sorted Z.le l' -> l' ≡ₚ l -> l' = py_sorted l.
Proof.
  intros Hs Hp. apply (Sorted_unique Z.le); [done | apply py_sorted_Sorted |].
  by rewrite py_sorted_Permutation.
Qed.

Lemma summarize_Permutation l1 l2 : l1 ≡ₚ l2 -> summarize l1 = summarize l2.
Proof. intros Hp. unfold summarize. by rewrite !(count_if_Permutation _ _ _ Hp). Qed.

(** Each id of [1, 200] is counted in exactly one band. *)
Lemma bands_total_cons x l :
  1 <= x <= 200 -> bands_total (summarize (x :: l)) = S (bands_total (summarize l)).
Proof.
  intros Hx. unfold bands_total, summarize. rewrite !count_if_cons.
  unfold in_band. cbn [band_1_5 band_6_10 band_11_20 band_21_50 band_51_200].
  repeat guard_cases; zbool; lia.
Qed.

(**   The five bands partition [1, 200]: on a pool of such ids the band
    counts add up to the size of the pool. *)
Lemma bands_total_length l :
  Forall (fun x => 1 <= x <= 200) l -> bands_total (summarize l) = length l.
Proof.
  induction 1 as [|x l Hx _ IH]; [done|].
  rewrite bands_total_cons by done. simpl. by rewrite IH.
Qed.

Lemma summarize_initial : summarize initial_rewards = mkBands 5 5 10 30 150.
Proof. vm_compute. reflexivity. Qed.

(** ** The handlers *)

(** [/reset-gacha] puts back the full pool and touches nothing else: the
    ticket and shard counters and the history are kept. *)
Lemma reset_effect s :
  reset s = (Ok [Respond MsgResetDone false],
             mkStore (counters s) initial_rewards (history s)).
Proof. reflexivity. Qed.

(** [/remaining-rewards] reads the pool and writes nothing. *)
Lemma remaining_spec s :
  remaining s =
    (Ok [match Redis.remaining s with
         | [] => Respond MsgPoolEmpty false
         | l => Respond (MsgRemaining (summarize l)
                  (if (length l <=? 10)%nat then Some (py_sorted l) else None)) false
         end], s).
Proof.
  unfold remaining. se_unfold. unfold R.lrange. simpl.
  rewrite lrange_list_all. by destruct (Redis.remaining s).
Qed.

(** C20:      [/reset-gacha] followed by [/remaining-rewards] reports the band counts
    {1-5: 5, 6-10: 5, 11-20: 10, 21-50: 30, 51-200: 150} and no detail
    (200 rewards are left, more than ten). *)
Theorem reset_then_remaining s :
  let s' := final (reset s) in
  remaining s' = (Ok [Respond (MsgRemaining (mkBands 5 5 10 30 150) None) false], s').
Proof.
  intros s'. rewrite remaining_spec. subst s'. rewrite reset_effect. simpl.
  rewrite <- summarize_initial. unfold initial_rewards at 1 3. reflexivity.
Qed.

(** C21:      The reset pool is exactly the ids 1 to 200, each once. *)
Theorem initial_rewards_spec :
  NoDup initial_rewards /\ length initial_rewards = 200%nat /\
  (forall x, x ∈ initial_rewards <-> 1 <= x <= 200).
Proof.
  split_and!; [apply initial_rewards_NoDup | apply length_initial_rewards |].
  apply elem_of_initial_rewards.
Qed.

(** C22:      [/remaining-rewards] on a non-empty pool reports the band counts of
    the pool and, exactly when at most ten rewards are left, the pool
    sorted in increasing order. *)
Theorem remaining_detail s :
  Redis.remaining s <> [] ->
  exists detail,
    remaining s = (Ok [Respond (MsgRemaining (summarize (Redis.remaining s)) detail) false], s) /\
    ((length (Redis.remaining s) <= 10)%nat ->
       exists d, detail = Some d /\ Sorted Z.le d /\ d ≡ₚ Redis.remaining s) /\
    ((10 < length (Redis.remaining s))%nat -> detail = None).
Proof.
  intros Hne. rewrite remaining_spec. destruct (Redis.remaining s) as [|x l] eqn:E; [done|].
  eexists. split; [reflexivity|]. split; intros Hl.
  - rewrite (proj2 (Nat.leb_le _ _) Hl). eexists. split_and!; [done | | ].
    + apply py_sorted_Sorted.
    + apply py_sorted_Permutation.
  - by rewrite (proj2 (Nat.leb_gt _ _) Hl).
Qed.

(** ** Witnesses *)

Lemma bands_total_length_witness :
  bands_total (summarize [3; 7; 150; 42]) = length [3; 7; 150; 42].
Proof. apply bands_total_length. repeat constructor; lia. Defined.

Lemma remaining_detail_witness :
  exists detail,
    remaining (mkStore ∅ [9; 2; 5] []) =
      (Ok [Respond (MsgRemaining (summarize [9; 2; 5]) detail) false], mkStore ∅ [9; 2; 5] []) /\
    ((length [9; 2; 5] <= 10)%nat ->
       exists d, detail = Some d /\ Sorted Z.le d /\ d ≡ₚ [9; 2; 5]) /\
    ((10 < length [9; 2; 5])%nat -> detail = None).
Proof. apply (remaining_detail (mkStore ∅ [9; 2; 5] [])). discriminate. Defined.

End Pool.
