(* ===== verification/History.v ===== *)
(** * The redemption history: [/rewards] and [/last-winners]

    [rewards] is bot.py:105-111: LRANGE the last ten entries of
    ["rewards:history"] (start -10, stop -1) and list them.  [last_winners]
    is bot.py:116-124: the same read with start [-count].  Both only read.
    Entries are stored JSON-encoded and decoded on reading; the model keeps
    them decoded (see Redis.v).

    The theorems describe what each command shows, through the LRANGE
    index rules: the last [n] entries oldest-first for [count = n >= 1];
    for [count = 0] the start index is [-0 = 0] and the whole history is
    shown; for [count < 0] the first [-count] entries are dropped.  [/rewards]
    takes no member and shows everyone's entries. *)

From S2P Require Import Prelude Redis Discord.

Module History.

(** The last [n] elements of [l], oldest first. *)
Definition last_n {A} (n : nat) (l : list A) : list A := drop (length l - n) l.

(** bot.py:105-111 *)
Definition rewards : Handler :=
  history <- R.lrange KHistory (-10) (-1) ;;
  match history with
  | [] => se_ret [Respond MsgNoHistory false]
  | _ => se_ret [Respond (MsgHistory history) false]
  end.

(** bot.py:116-124; [count] defaults to 5 in the command. *)
Definition last_winners (count : Z) : Handler :=
  history <- R.lrange KHistory (- count) (-1) ;;
  match history with
  | [] => se_ret [Respond MsgNoWinners false]
  | _ => se_ret [Respond (MsgWinners history) false]
  end.

Definition default_count : Z := 5.

(** ** Lemmas *)

Lemma last_n_nil {A} n (l : list A) : last_n n l = [] <-> l = [] \/ n = 0%nat.
Proof.
  unfold last_n. split.
  - intros H. destruct n as [|n]; [by right|left].
    apply (f_equal length) in H. rewrite length_drop in H. simpl in H.
    destruct l; simpl in *; [done | lia].
  - intros [-> | ->]; [done|]. rewrite Nat.sub_0_r. apply drop_all.
Qed.

Lemma last_n_app_r {A} n (l1 l2 : list A) :
  (length l2 <= n)%nat -> last_n n (l1 ++ l2) = last_n (n - length l2) l1 ++ l2.
Proof.
  intros Hn. unfold last_n. rewrite length_app.
  rewrite drop_app_le by lia. f_equal. f_equal. lia.
Qed.

(** The read both commands do. *)
Lemma lrange_history s k :
  R.lrange KHistory (- k) (-1) s =
  (Ok (drop (if 0 <? k then (length (history s) - Z.to_nat k)%nat else Z.to_nat (- k))
            (history s)), s).
Proof. unfold R.lrange. simpl. by rewrite lrange_list_suffix. Qed.

(** The answer of [/last-winners] for the entries [es] it read. *)
Definition winners_reply (es : list Entry) : Out :=
  match es with
  | [] => Respond MsgNoWinners false
  | _ => Respond (MsgWinners es) false
  end.

Lemma last_winners_spec count s :
  last_winners count s =
  (Ok [winners_reply (drop (if 0 <? count then (length (history s) - Z.to_nat count)%nat
                             else Z.to_nat (- count)) (history s))], s).
Proof.
  unfold last_winners. se_unfold. rewrite lrange_history. simpl.
  by destruct (drop _ _).
Qed.

(** C23:      [/last-winners count] with [count >= 1] shows the last [count] entries
    (all of them when there are fewer), oldest first, and writes nothing. *)
Theorem last_winners_last count s :
  1 <= count ->
  last_winners count s = (Ok [winners_reply (last_n (Z.to_nat count) (history s))], s).
Proof.
  intros Hc. rewrite last_winners_spec.
  replace (0 <? count) with true by (symmetry; apply Z.ltb_lt; lia). done.
Qed.

(** C24:      [/last-winners 0] shows the whole history, not zero entries: the start
    index [-0] is 0, the first entry. *)
Theorem last_winners_zero s :
  last_winners 0 s = (Ok [winners_reply (history s)], s).
Proof. by rewrite last_winners_spec. Qed.

(** C25:      [/last-winners count] with [count < 0] shows the history without its
    first [-count] entries. *)
Theorem last_winners_negative count s :
  count < 0 ->
  last_winners count s = (Ok [winners_reply (drop (Z.to_nat (- count)) (history s))], s).
Proof.
  intros Hc. rewrite last_winners_spec.
  replace (0 <? count) with false by (symmetry; apply Z.ltb_ge; lia). done.
Qed.

(** C28:      [/rewards] shows the last ten entries of the whole history, whoever won
    them, and writes nothing. *)
Theorem rewards_spec s :
  rewards s =
  (Ok [match last_n 10 (history s) with
       | [] => Respond MsgNoHistory false
       | es => Respond (MsgHistory es) false
       end], s).
Proof.
  unfold rewards. se_unfold.
  change (R.lrange KHistory (-10) (-1) s) with (R.lrange KHistory (Z.opp 10) (-1) s).
  rewrite (lrange_history s 10). unfold last_n. simpl.
  by destruct (drop _ _).
Qed.

(** ** Witnesses *)

Definition w_hist : Store :=
  mkStore ∅ [] [mkEntry 1 10; mkEntry 2 20; mkEntry 3 30; mkEntry 4 40; mkEntry 5 50].

Lemma last_winners_last_witness :
  last_winners 3 w_hist = (Ok [winners_reply (last_n (Z.to_nat 3) (history w_hist))], w_hist).
Proof. apply last_winners_last. lia. Defined.

Lemma last_winners_negative_witness :
  last_winners (-2) w_hist =
  (Ok [winners_reply (drop (Z.to_nat (- -2)) (history w_hist))], w_hist).
Proof. apply last_winners_negative. lia. Defined.

End History.
