(* ===== verification/Json.v ===== *)
(** * History entries as JSON text: [json.dumps] and [json.loads]

    [/gacha] stores each win as the string
    [json.dumps({"user": user_id, "reward": reward})] (bot.py:49), both
    values being Python strings ([str(interaction.user.id)] and the reward
    string read back from Redis with [decode_responses=True]); [/rewards]
    and [/last-winners] decode every entry with [json.loads] and read
    [h['user']] and [h['reward']] (bot.py:109-110, 120-123).

    A Python [str] is a sequence of Unicode code points: [ustr], a list of
    [Z].  This file models the two library functions as CPython's [json]
    module computes them with its default arguments, on objects whose keys
    and values are strings, the only JSON the program writes:
    - [json_escape_char] is [encode_basestring_ascii] ([ensure_ascii=True]):
      the quote and the backslash are escaped, \b \f \n \r \t take their
      short forms, the printable ASCII characters 32..126 stay, every other
      code point becomes [\uXXXX] in lower-case hexadecimal, and one above
      U+FFFF becomes the [\uXXXX\uXXXX] of its UTF-16 surrogate pair, built
      with the shifts and masks of the C code;
    - [dumps_obj] joins the pairs with [", "] and [": "] between braces;
    - [scan_string] is [scanstring] in strict mode: a raw control character
      is refused; the escapes of the quote, the backslash, the slash and
      b f n r t, and [\uXXXX] with hexadecimal digits in either case, are
      decoded, a high surrogate escape followed by a low surrogate escape
      being joined into one code point ([join_surrogates]);
    - [parse_object] is the object scanner with its whitespace rules;
      [loads] refuses trailing data; [py_getitem] is the lookup in the
      resulting dict, where a repeated key keeps its last value.
    Every error the decoder raises is [None]; JSON values other than
    strings, which the program never writes, are refused as well.  The C
    scanner tries to join two surrogate escapes only when six more
    characters follow the first; without that many a string cannot be
    terminated anyway, so dropping the check changes no result.

    The lemmas: [loads] inverts [dumps_obj] on every list of pairs of
    strings of Unicode scalar values (code points that are not surrogates),
    with the fuel the definition chooses ([loads_dumps]); two lone
    surrogates in a row do not survive the round trip ([surrogates_join]);
    the string bot.py:49 stores for a win decodes, with the keys bot.py:110
    and 123 read, to the decimal strings of its member id and reward
    ([entry_json_decode]), which Render.v uses for the history texts. *)

From S2P Require Import Prelude Redis.
From stdpp Require Import strings pretty.
From Stdlib Require Import Ascii.

Module Json.
Local Open Scope Z_scope.

(** ** Python strings *)

(** A Python [str]: its code points. *)
Definition ustr : Type := list Z.

(** An ASCII literal as a Python string. *)
Definition of_ascii (s : string) : ustr :=
  map (fun c => Z.of_nat (nat_of_ascii c)) (String.list_ascii_of_string s).

(** A code point that is a Unicode scalar value: in range, not a
    surrogate. *)
Definition scalar (c : Z) : Prop := 0 <= c <= 1114111 /\ ~ (55296 <= c <= 57343).

(** A dict of strings whose keys and values are such strings. *)
Definition scalar_pair (kv : ustr * ustr) : Prop := Forall scalar kv.1 /\ Forall scalar kv.2.

Fixpoint ustr_eqb (a b : ustr) : bool :=
  match a, b with
  | [], [] => true
  | x :: a', y :: b' => (x =? y) && ustr_eqb a' b'
  | _, _ => false
  end.

(** ** Encoding: [json.dumps] *)

(** A lower-case hexadecimal digit, [0 <= n < 16]. *)
Definition hex_digit (n : Z) : Z := if n <? 10 then 48 + n else 87 + n.

(** ['\\u{0:04x}'.format(n)]. *)
Definition u_escape (n : Z) : ustr :=
  [92; 117; hex_digit (n / 4096 mod 16); hex_digit (n / 256 mod 16);
   hex_digit (n / 16 mod 16); hex_digit (n mod 16)].

(** [ESCAPE_DCT] and the surrogate pair of [py_encode_basestring_ascii]. *)
Definition json_escape_char (c : Z) : ustr :=
  if c =? 34 then [92; 34]
  else if c =? 92 then [92; 92]
  else if c =? 8 then [92; 98]
  else if c =? 12 then [92; 102]
  else if c =? 10 then [92; 110]
  else if c =? 13 then [92; 114]
  else if c =? 9 then [92; 116]
  else if (32 <=? c) && (c <=? 126) then [c]
  else if c <? 65536 then u_escape c
  else
    let n := c - 65536 in
    u_escape (Z.lor 55296 (Z.land (Z.shiftr n 10) 1023)) ++
    u_escape (Z.lor 56320 (Z.land n 1023)).

Fixpoint json_escape (s : ustr) : ustr :=
  match s with
  | [] => []
  | c :: s' => json_escape_char c ++ json_escape s'
  end.

(** The escaped string between quotes. *)
Definition json_quote (s : ustr) : ustr := 34 :: json_escape s ++ [34].

Definition dumps_pair (kv : ustr * ustr) : ustr :=
  json_quote kv.1 ++ of_ascii ": " ++ json_quote kv.2.

Fixpoint dumps_members (kvs : list (ustr * ustr)) : ustr :=
  match kvs with
  | [] => []
  | [kv] => dumps_pair kv
  | kv :: kvs' => dumps_pair kv ++ of_ascii ", " ++ dumps_members kvs'
  end.

(** [json.dumps] of a dict whose keys and values are strings. *)
Definition dumps_obj (kvs : list (ustr * ustr)) : ustr :=
  [123] ++ dumps_members kvs ++ [125].

(** bot.py:49, the history entry of a win. *)
Definition dumps_entry (user reward : ustr) : ustr :=
  dumps_obj [(of_ascii "user", user); (of_ascii "reward", reward)].

(** ** Decoding: [json.loads] *)

Definition is_ws (c : Z) : bool := (c =? 32) || (c =? 9) || (c =? 10) || (c =? 13).

Fixpoint skip_ws (s : ustr) : ustr :=
  match s with
  | c :: s' => if is_ws c then skip_ws s' else s
  | [] => []
  end.

Definition hex_val (c : Z) : option Z :=
  if (48 <=? c) && (c <=? 57) then Some (c - 48)
  else if (97 <=? c) && (c <=? 102) then Some (c - 87)
  else if (65 <=? c) && (c <=? 70) then Some (c - 55)
  else None.

(** Four hexadecimal digits, the error of an invalid one as [None]. *)
Definition hex_value (a b c d : Z) : option Z :=
  a' ← hex_val a; b' ← hex_val b; c' ← hex_val c; d' ← hex_val d;
  Some (((a' * 16 + b') * 16 + c') * 16 + d').

(** The one-character escapes of [BACKSLASH] in [json.decoder]. *)
Definition simple_escape (c : Z) : option Z :=
  if c =? 34 then Some 34
  else if c =? 92 then Some 92
  else if c =? 47 then Some 47
  else if c =? 98 then Some 8
  else if c =? 102 then Some 12
  else if c =? 110 then Some 10
  else if c =? 114 then Some 13
  else if c =? 116 then Some 9
  else None.

Definition is_high (c : Z) : bool := (55296 <=? c) && (c <=? 56319).
Definition is_low (c : Z) : bool := (56320 <=? c) && (c <=? 57343).

(** [Py_UNICODE_JOIN_SURROGATES]. *)
Definition join_surrogates (hi lo : Z) : Z :=
  65536 + Z.lor (Z.shiftl (Z.land hi 1023) 10) (Z.land lo 1023).

Definition scons (c : Z) (r : ustr * ustr) : ustr * ustr := (c :: r.1, r.2).

(** [scanstring], strict: the string body after its opening quote; the
    decoded string and the text after the closing quote. *)
Fixpoint scan_string (s : ustr) : option (ustr * ustr) :=
  match s with
  | [] => None
  | c :: s' =>
      if c =? 34 then Some ([], s')
      else if c =? 92 then
        match s' with
        | e :: s'' =>
            match simple_escape e with
            | Some d => scons d <$> scan_string s''
            | None =>
                if e =? 117 then
                  match s'' with
                  | a :: b :: c1 :: d :: rest =>
                      x ← hex_value a b c1 d;
                      if is_high x then
                        match rest with
                        | bs :: u :: a2 :: b2 :: c2 :: d2 :: rest2 =>
                            if (bs =? 92) && (u =? 117) then
                              y ← hex_value a2 b2 c2 d2;
                              if is_low y then scons (join_surrogates x y) <$> scan_string rest2
                              else scons x <$> scan_string rest
                            else scons x <$> scan_string rest
                        | _ => scons x <$> scan_string rest
                        end
                      else scons x <$> scan_string rest
                  | _ => None
                  end
                else None
            end
        | [] => None
        end
      else if c <? 32 then None
      else scons c <$> scan_string s'
  end.

Definition expect (c : Z) (s : ustr) : option ustr :=
  match s with
  | c' :: s' => if c =? c' then Some s' else None
  | [] => None
  end.

(** One [key: value] member of [JSONObject], from its opening quote to the
    whitespace after the value. *)
Definition parse_pair (s : ustr) : option ((ustr * ustr) * ustr) :=
  s1 ← expect 34 s;
  '(k, s2) ← scan_string s1;
  s3 ← expect 58 (skip_ws s2);
  s4 ← expect 34 (skip_ws s3);
  '(v, s5) ← scan_string s4;
  Some ((k, v), skip_ws s5).

(** The members up to the closing brace; each round consumes a member, so
    the length of the text is enough fuel. *)
Fixpoint parse_members (fuel : nat) (s : ustr) : option (list (ustr * ustr) * ustr) :=
  match fuel with
  | O => None
  | S fuel' =>
      '(kv, s1) ← parse_pair s;
      match s1 with
      | c :: s2 =>
          if c =? 44 then '(kvs, s3) ← parse_members fuel' (skip_ws s2); Some (kv :: kvs, s3)
          else if c =? 125 then Some ([kv], s2)
          else None
      | [] => None
      end
  end.

Definition parse_object (fuel : nat) (s : ustr) : option (list (ustr * ustr) * ustr) :=
  s1 ← expect 123 (skip_ws s);
  match skip_ws s1 with
  | c :: s2 => if c =? 125 then Some ([], s2) else parse_members fuel (c :: s2)
  | [] => None
  end.

(** [json.loads] on an object of strings, refusing extra data. *)
Definition loads (s : ustr) : option (list (ustr * ustr)) :=
  '(kvs, rest) ← parse_object (length s) s;
  match skip_ws rest with
  | [] => Some kvs
  | _ => None
  end.

(** [d[k]] on the dict built from the pairs: the last value given to [k];
    [None] is the [KeyError]. *)
Definition py_getitem (k : ustr) (d : list (ustr * ustr)) : option ustr :=
  foldl (fun acc kv => if ustr_eqb k kv.1 then Some kv.2 else acc) None d.

(** bot.py:109-110 and 120-123: an entry decoded and its two fields read. *)
Definition decode_entry (h : ustr) : option (ustr * ustr) :=
  d ← loads h;
  u ← py_getitem (of_ascii "user") d;
  r ← py_getitem (of_ascii "reward") d;
  Some (u, r).

(** The string bot.py:49 stores for an entry of the model: [str] of the
    member id and the reward string, which is [str] of the reward. *)
Definition entry_json (e : Entry) : ustr :=
  dumps_entry (of_ascii (pretty (e_user e))) (of_ascii (pretty (e_reward e))).

(** ** Proof tools *)

(** Decide the integer comparisons of the goal by [lia]. *)
Ltac zdecide :=
  repeat match goal with
  | |- context [?a =? ?b] =>
      first [rewrite (proj2 (Z.eqb_neq a b)) by lia | rewrite (proj2 (Z.eqb_eq a b)) by lia]
  | |- context [?a <? ?b] =>
      first [rewrite (proj2 (Z.ltb_lt a b)) by lia | rewrite (proj2 (Z.ltb_ge a b)) by lia]
  | |- context [?a <=? ?b] =>
      first [rewrite (proj2 (Z.leb_le a b)) by lia | rewrite (proj2 (Z.leb_gt a b)) by lia]
  end.

#[local] Arguments hex_value : simpl never.
#[local] Arguments is_high : simpl never.
#[local] Arguments is_low : simpl never.
#[local] Arguments join_surrogates : simpl never.
#[local] Arguments dumps_members : simpl never.

(** ** Hexadecimal escapes *)

Lemma hex_val_digit d : 0 <= d < 16 -> hex_val (hex_digit d) = Some d.
Proof. intros Hd. unfold hex_digit, hex_val. repeat (guard_cases; zbool; try lia); f_equal; lia. Qed.

Lemma hex_digits n : 0 <= n < 65536 ->
  ((n / 4096 mod 16 * 16 + n / 256 mod 16) * 16 + n / 16 mod 16) * 16 + n mod 16 = n.
Proof.
  intros Hn.
  assert (n / 256 = n / 16 / 16) by (rewrite Z.div_div by lia; reflexivity).
  assert (n / 4096 = n / 256 / 16) by (rewrite Z.div_div by lia; reflexivity).
  pose proof (Z.div_mod n 16 ltac:(lia)). pose proof (Z.div_mod (n / 16) 16 ltac:(lia)).
  pose proof (Z.div_mod (n / 256) 16 ltac:(lia)).
  rewrite (Z.mod_small (n / 4096) 16) by (split; [apply Z.div_pos | apply Z.div_lt_upper_bound]; lia).
  lia.
Qed.

(** [u_escape n] is a backslash, a [u] and four digits that read back as
    [n]. *)
Lemma u_escape_hex n : 0 <= n < 65536 ->
  exists a b c d, u_escape n = [92; 117; a; b; c; d] /\ hex_value a b c d = Some n.
Proof.
  intros Hn. do 4 eexists. split; [reflexivity|]. unfold hex_value.
  rewrite !hex_val_digit by (apply Z.mod_pos_bound; lia). simpl. f_equal. by apply hex_digits.
Qed.

Lemma lor_shiftl_low a b k : 0 <= k -> 0 <= b < 2 ^ k -> Z.lor (Z.shiftl a k) b = a * 2 ^ k + b.
Proof.
  intros Hk Hb.
  assert (H0 : Z.land (Z.shiftl a k) b = 0).
  { apply Z.bits_inj'. intros i Hi. rewrite Z.land_spec, Z.bits_0.
    destruct (Z.lt_ge_cases i k).
    - by rewrite Z.shiftl_spec_low by lia.
    - rewrite <- (Z.mod_small b (2 ^ k)) by lia. rewrite Z.mod_pow2_bits_high by lia.
      apply andb_false_r. }
  rewrite <- Z.lxor_lor, <- Z.add_nocarry_lxor by done. by rewrite Z.shiftl_mul_pow2 by lia.
Qed.

Lemma land_1023 x : Z.land x 1023 = x mod 1024.
Proof. change 1023 with (Z.ones 10). by rewrite Z.land_ones by lia. Qed.

(** The two halves of the surrogate pair of [65536 + n]. *)
Lemma surrogate_high n : 0 <= n < 2 ^ 20 ->
  Z.lor 55296 (Z.land (Z.shiftr n 10) 1023) = 55296 + n / 1024.
Proof.
  intros Hn. rewrite land_1023, Z.shiftr_div_pow2 by lia.
  rewrite (Z.mod_small (n / 2 ^ 10)) by (split; [apply Z.div_pos | apply Z.div_lt_upper_bound]; lia).
  change 55296 with (Z.shiftl 54 10). rewrite lor_shiftl_low by
    (first [lia | split; [apply Z.div_pos | apply Z.div_lt_upper_bound]; lia]).
  reflexivity.
Qed.

Lemma surrogate_low n : 0 <= n -> Z.lor 56320 (Z.land n 1023) = 56320 + n mod 1024.
Proof.
  intros Hn. rewrite land_1023. change 56320 with (Z.shiftl 55 10).
  rewrite lor_shiftl_low by (pose proof (Z.mod_pos_bound n 1024); lia). reflexivity.
Qed.

Lemma join_surrogates_pair n : 0 <= n < 2 ^ 20 ->
  join_surrogates (55296 + n / 1024) (56320 + n mod 1024) = 65536 + n.
Proof.
  intros Hn. unfold join_surrogates. rewrite !land_1023.
  assert (0 <= n / 1024 < 1024) by (split; [apply Z.div_pos | apply Z.div_lt_upper_bound]; lia).
  pose proof (Z.mod_pos_bound n 1024 ltac:(lia)).
  assert (Hq : (55296 + n / 1024) mod 1024 = n / 1024).
  { replace (55296 + n / 1024) with (n / 1024 + 54 * 1024) by lia.
    rewrite Z.mod_add by lia. by apply Z.mod_small. }
  assert (Hr : (56320 + n mod 1024) mod 1024 = n mod 1024).
  { replace (56320 + n mod 1024) with (n mod 1024 + 55 * 1024) by lia.
    rewrite Z.mod_add by lia. by apply Z.mod_small. }
  rewrite Hq, Hr, lor_shiftl_low by (change (2 ^ 10) with 1024; lia).
  pose proof (Z.div_mod n 1024 ltac:(lia)). change (2 ^ 10) with 1024. lia.
Qed.

(** ** Decoding inverts encoding *)

(** A scalar value's escape reads back as that code point, whatever
    follows it. *)
Lemma scan_escape_char c rest : scalar c ->
  scan_string (json_escape_char c ++ rest) = scons c <$> scan_string rest.
Proof.
  intros [Hr Hs]. unfold json_escape_char.
  destruct (Z.eqb_spec c 34) as [->|]; [done|].
  destruct (Z.eqb_spec c 92) as [->|]; [done|].
  destruct (Z.eqb_spec c 8) as [->|]; [done|].
  destruct (Z.eqb_spec c 12) as [->|]; [done|].
  destruct (Z.eqb_spec c 10) as [->|]; [done|].
  destruct (Z.eqb_spec c 13) as [->|]; [done|].
  destruct (Z.eqb_spec c 9) as [->|]; [done|].
  destruct ((32 <=? c) && (c <=? 126)) eqn:Hp.
  { zbool. simpl. zdecide. reflexivity. }
  destruct (Z.ltb_spec c 65536).
  - destruct (u_escape_hex c) as (a & b & d & e & -> & Hx); [lia|].
    simpl. rewrite Hx. simpl.
    replace (is_high c) with false by (unfold is_high; destruct (Z.lt_ge_cases c 55296); zdecide; done || lia).
    reflexivity.
  - assert (0 <= (c - 65536) / 1024 < 1024)
      by (split; [apply Z.div_pos | apply Z.div_lt_upper_bound]; lia).
    pose proof (Z.mod_pos_bound (c - 65536) 1024 ltac:(lia)).
    cbv zeta. rewrite surrogate_high, surrogate_low by lia. rewrite <- app_assoc.
    destruct (u_escape_hex (55296 + (c - 65536) / 1024)) as (a & b & d & e & -> & Hx); [lia|].
    destruct (u_escape_hex (56320 + (c - 65536) mod 1024)) as (a' & b' & d' & e' & -> & Hy); [lia|].
    simpl. rewrite Hx. simpl.
    replace (is_high _) with true by (unfold is_high; zdecide; done). simpl. rewrite Hy. simpl.
    replace (is_low _) with true by (unfold is_low; zdecide; done).
    rewrite join_surrogates_pair by lia. by replace (65536 + (c - 65536)) with c by lia.
Qed.

Lemma scan_json_escape s rest : Forall scalar s ->
  scan_string (json_escape s ++ 34 :: rest) = Some (s, rest).
Proof.
  induction 1 as [|c s Hc Hs IH]; [done|]. cbn [json_escape].
  by rewrite <- app_assoc, scan_escape_char, IH.
Qed.

Lemma json_quote_app s rest : json_quote s ++ rest = 34 :: json_escape s ++ 34 :: rest.
Proof. unfold json_quote. simpl. by rewrite <- app_assoc. Qed.

Lemma of_ascii_colon t : of_ascii ": " ++ t = 58 :: 32 :: t.
Proof. reflexivity. Qed.

Lemma of_ascii_comma t : of_ascii ", " ++ t = 44 :: 32 :: t.
Proof. reflexivity. Qed.

Lemma parse_pair_dumps kv c t : scalar_pair kv -> is_ws c = false ->
  parse_pair (dumps_pair kv ++ c :: t) = Some (kv, c :: t).
Proof.
  intros [Hk Hv] Hc. destruct kv as [k v]. unfold dumps_pair, parse_pair. cbn [fst snd] in *.
  rewrite <- !app_assoc, of_ascii_colon, !json_quote_app. simpl.
  rewrite scan_json_escape by done. simpl. rewrite scan_json_escape by done. simpl. by rewrite Hc.
Qed.

Lemma dumps_members_cons kv kvs : exists t, dumps_members (kv :: kvs) = 34 :: t.
Proof. destruct kvs; eexists; reflexivity. Qed.

Lemma skip_ws_members kv kvs t :
  skip_ws (dumps_members (kv :: kvs) ++ t) = dumps_members (kv :: kvs) ++ t.
Proof. destruct (dumps_members_cons kv kvs) as [t' ->]. reflexivity. Qed.

Lemma dumps_members_cons_cons kv kv' kvs :
  dumps_members (kv :: kv' :: kvs) = dumps_pair kv ++ of_ascii ", " ++ dumps_members (kv' :: kvs).
Proof. reflexivity. Qed.

Lemma length_dumps_members kvs : (length kvs <= length (dumps_members kvs))%nat.
Proof.
  induction kvs as [|kv kvs IH]; [simpl; lia|]. destruct kvs as [|kv' kvs].
  - destruct (dumps_members_cons kv []) as [t ->]. simpl. lia.
  - rewrite dumps_members_cons_cons, of_ascii_comma, !length_app. cbn [length] in *. lia.
Qed.

Lemma parse_members_dumps fuel kvs rest :
  Forall scalar_pair kvs -> kvs <> [] -> (length kvs <= fuel)%nat ->
  parse_members fuel (dumps_members kvs ++ 125 :: rest) = Some (kvs, rest).
Proof.
  intros Hs. revert fuel. induction Hs as [|kv kvs Hkv Hkvs IH]; intros fuel Hne Hf; [done|].
  destruct fuel as [|fuel]; simpl in Hf; [lia|].
  destruct kvs as [|kv' kvs].
  - cbn [parse_members]. change (dumps_members [kv]) with (dumps_pair kv).
    by rewrite parse_pair_dumps.
  - rewrite dumps_members_cons_cons, <- !app_assoc, of_ascii_comma. cbn [parse_members].
    rewrite parse_pair_dumps by done. simpl. rewrite skip_ws_members, IH by (done || simpl in *; lia).
    done.
Qed.

(** [parse_object] reads back what [dumps_obj] wrote, with any fuel above
    the number of members. *)
Lemma parse_object_dumps fuel kvs rest :
  Forall scalar_pair kvs -> (length kvs <= fuel)%nat ->
  parse_object fuel (dumps_obj kvs ++ rest) = Some (kvs, rest).
Proof.
  intros Hs Hf. unfold dumps_obj, parse_object.
  destruct kvs as [|kv kvs]; [reflexivity|].
  rewrite <- !app_assoc. simpl. rewrite skip_ws_members.
  destruct (dumps_members_cons kv kvs) as [t Ht]. rewrite Ht. simpl.
  change (34 :: t ++ 125 :: rest) with ((34 :: t) ++ 125 :: rest). rewrite <- Ht.
  by apply parse_members_dumps.
Qed.

Lemma length_dumps_obj kvs : (length kvs <= length (dumps_obj kvs))%nat.
Proof. unfold dumps_obj. rewrite !length_app. pose proof (length_dumps_members kvs). cbn [length]. lia. Qed.

Lemma loads_dumps kvs : Forall scalar_pair kvs -> loads (dumps_obj kvs) = Some kvs.
Proof.
  intros Hs. unfold loads.
  pose proof (parse_object_dumps _ kvs [] Hs (length_dumps_obj kvs)) as H.
  rewrite app_nil_r in H. by rewrite H.
Qed.

(** Characters are bytes in an ASCII literal, so scalar values. *)
Lemma of_ascii_scalar s : Forall scalar (of_ascii s).
Proof.
  apply Forall_map, Forall_forall. intros a _.
  pose proof (nat_ascii_bounded a). unfold scalar. lia.
Qed.

Lemma decode_entry_dumps u r : Forall scalar u -> Forall scalar r ->
  decode_entry (dumps_entry u r) = Some (u, r).
Proof.
  intros Hu Hr. unfold decode_entry, dumps_entry.
  rewrite loads_dumps; [by simpl|].
  do 2 (constructor; [split; [apply of_ascii_scalar | done] |]). constructor.
Qed.

(** ** The entries of the history *)

(** The hypothesis of [loads_dumps] is needed: a string holding a lone
    high surrogate followed by a lone low one comes back as the one code
    point they encode. *)
Example surrogates_join : loads (dumps_obj [([55296; 56320], [])]) = Some [([65536], [])].
Proof. vm_compute. reflexivity. Qed.

(** The history entry bot.py:49 stores for a win decodes, at bot.py:109-110
    and 120-123, to the decimal strings of the member id and of the reward:
    [h['user']] is [str(user_id)], [h['reward']] is [str(reward)]. *)
Theorem entry_json_decode e :
  decode_entry (entry_json e) = Some (of_ascii (pretty (e_user e)), of_ascii (pretty (e_reward e))).
Proof. apply decode_entry_dumps; apply of_ascii_scalar. Qed.

End Json.
