(* ===== verification/Render.v ===== *)
(** * The text of every message the bot sends

    Discord.v keeps a message as the values its f-string interpolates.
    This file writes the f-strings out, one per constructor of [Msg]
    ([render]), as the Python strings they build: sequences of code points
    ([Json.ustr]), the literals of bot.py decoded from the UTF-8 of the
    source file ([lit]).  Python's [str] of an integer is stdpp's [pretty]
    on [Z] ([py_str]), [member.mention] is ["<@id>"], ["sep".join(l)] is
    [py_join].  The history texts of [/rewards] (bot.py:109-111) and
    [/last-winners] (bot.py:120-124) are built, as the code builds them,
    from the strings the history list holds: each stored entry is decoded
    with [json.loads] (Json.v) and its [h['user']] and [h['reward']] are
    interpolated; a decoding failure would raise, so [render] returns an
    option.

    Discord refuses a message of more than 2000 characters (the
    [send_message] call then raises [HTTPException]).  Whether a character
    is a code point or a UTF-16 unit, the theorems hold under both counts:
    a [/rewards] reply (at most ten entries) takes at most 2000 UTF-16
    units ([utf16_len]), so at most 2000 code points; a [/last-winners]
    reply over 59 or more entries of members with Discord's 17-digit ids
    takes more than 2000 code points, so more than 2000 UTF-16 units, and
    cannot be sent.  The history texts render the entries' member ids and
    rewards in decimal, in order. *)

From S2P Require Import Prelude Redis Discord History Json.
From stdpp Require Import strings pretty.
From Stdlib Require Import Ascii.

Module Render.

Local Open Scope Z_scope.
Import Json (ustr).

(** The code points of UTF-8 bytes: how Python reads a literal of its
    source file. *)
Fixpoint utf8_decode (l : list Z) : ustr :=
  match l with
  | [] => []
  | b :: l1 =>
      if b <? 128 then b :: utf8_decode l1
      else if b <? 224 then
        match l1 with
        | b1 :: l2 => (Z.land b 31 * 64 + Z.land b1 63) :: utf8_decode l2
        | [] => []
        end
      else if b <? 240 then
        match l1 with
        | b1 :: b2 :: l3 => ((Z.land b 15 * 64 + Z.land b1 63) * 64 + Z.land b2 63) :: utf8_decode l3
        | _ => []
        end
      else
        match l1 with
        | b1 :: b2 :: b3 :: l4 =>
            (((Z.land b 7 * 64 + Z.land b1 63) * 64 + Z.land b2 63) * 64 + Z.land b3 63)
              :: utf8_decode l4
        | _ => []
        end
  end.

(** A string literal of bot.py. *)
Definition lit (s : string) : ustr := utf8_decode (Json.of_ascii s).

Definition nl : ustr := [10].

(** Python's [str] of an int. *)
Definition py_str (z : Z) : ustr := Json.of_ascii (pretty z).

(** [member.mention] of discord.py. *)
Definition mention (id : Z) : ustr := lit "<@" ++ py_str id ++ lit ">".

(** [sep.join(l)]. *)
Fixpoint py_join (sep : ustr) (l : list ustr) : ustr :=
  match l with
  | [] => []
  | [x] => x
  | x :: l' => x ++ sep ++ py_join sep l'
  end.

(** bot.py:83, one line of the band summary. *)
Definition band_line (group : ustr) (count : nat) : ustr :=
  lit "- " ++ group ++ lit " → " ++ py_str (Z.of_nat count) ++ nl.

(** bot.py:81-86 *)
Definition render_remaining (b : Bands) (detail : option (list Z)) : ustr :=
  lit "📦 **Remaining rewards:**" ++ nl ++
  band_line (lit "1-5") (band_1_5 b) ++ band_line (lit "6-10") (band_6_10 b) ++
  band_line (lit "11-20") (band_11_20 b) ++ band_line (lit "21-50") (band_21_50 b) ++
  band_line (lit "51-200") (band_51_200 b) ++
  match detail with
  | Some l => nl ++ lit "🔍 Detail: " ++ py_join (lit ", ") (map py_str l)
  | None => []
  end.

(** bot.py:110 and 123, an entry as the code prints it from its decoded
    fields. *)
Definition entry_line (h : ustr * ustr) : ustr :=
  lit "<@" ++ h.1 ++ lit "> → Reward " ++ h.2.

(** bot.py:123, one line of the winners' list. *)
Definition winner_line (h : ustr * ustr) : ustr := lit "- " ++ entry_line h ++ nl.

(** The first lines of bot.py:111 and bot.py:121. *)
Definition history_header : ustr := lit "📜 History:".
Definition winners_header : ustr := lit "🏆 **Last winners:**".

(** bot.py:109-111: [json.loads] of every stored entry, then the lines
    joined by newlines. *)
Definition render_history (hs : list ustr) : option ustr :=
  parsed ← mapM Json.decode_entry hs;
  Some (history_header ++ nl ++ py_join nl (map entry_line parsed)).

(** bot.py:120-124 *)
Definition render_winners (hs : list ustr) : option ustr :=
  parsed ← mapM Json.decode_entry hs;
  Some (winners_header ++ nl ++ foldr (fun h acc => winner_line h ++ acc) [] parsed).

(** The text sent for each message; the history messages render the
    strings bot.py:49 stored for their entries. *)
Definition render (m : Msg) : option ustr :=
  match m with
  | MsgNoTicket => Some (lit "❌ You don't own a Gacha Ticket. Contact <@912376040142307419> or <@801879772421423115>")
  | MsgNoRewardsLeft => Some (lit "🎉 No rewards left!")
  | MsgCongrats u r => Some (lit "🎊 Congrats <@" ++ py_str u ++ lit ">! You won **Reward " ++ py_str r ++ lit "**!")
  | MsgJustWon u r => Some (lit "🎁 <@" ++ py_str u ++ lit "> just won **Reward " ++ py_str r ++ lit "**!")
  | MsgTicketAdded m => Some (lit "🎟️ Ticket added to " ++ mention m)
  | MsgPoolEmpty => Some (lit "📦 No rewards left.")
  | MsgRemaining b detail => Some (render_remaining b detail)
  | MsgResetDone => Some (lit "🔄 Gacha reset with all rewards!")
  | MsgNoHistory => Some (lit "📜 No history yet.")
  | MsgHistory es => render_history (map Json.entry_json es)
  | MsgNoWinners => Some (lit "📜 No winners yet.")
  | MsgWinners es => render_winners (map Json.entry_json es)
  | MsgAmountNotPositive => Some (lit "❌ Amount must be positive.")
  | MsgShardsGiven a m t =>
      Some (lit "💎 " ++ py_str a ++ lit " Shards given to " ++ mention m ++ lit ". Current total: " ++ py_str t)
  | MsgShardsTooFew m c a =>
      Some (lit "⚠️ " ++ mention m ++ lit " only has " ++ py_str c ++ lit " Shards, cannot remove " ++ py_str a ++ lit ".")
  | MsgShardsRemoved a m t =>
      Some (lit "💎 " ++ py_str a ++ lit " Shards removed from " ++ mention m ++ lit ". Current total: " ++ py_str t)
  | MsgShardTotal t => Some (lit "💎 You currently have **" ++ py_str t ++ lit " Shards of Awesomeness**.")
  end.

(** The length limit of a message's content in the Discord API. *)
Definition discord_limit : nat := 2000.

(** The length of a text in UTF-16 units: two for a code point above
    U+FFFF. *)
Fixpoint utf16_len (s : ustr) : nat :=
  match s with
  | [] => O
  | c :: s' => ((if (c <? 65536)%Z then 1 else 2) + utf16_len s')%nat
  end.

(** ** Lengths *)

Lemma utf16_len_app a b : utf16_len (a ++ b) = (utf16_len a + utf16_len b)%nat.
Proof. induction a as [|c a IH]; simpl; [done | rewrite IH; lia]. Qed.

Lemma length_le_utf16_len s : (length s <= utf16_len s)%nat.
Proof. induction s as [|c s IH]; simpl; [lia|]. destruct (c <? 65536); lia. Qed.

Lemma utf16_len_bmp s : Forall (fun c => c < 65536) s -> utf16_len s = length s.
Proof.
  induction 1 as [|c s Hc Hs IH]; [done|]. simpl. rewrite IH.
  by rewrite (proj2 (Z.ltb_lt c 65536) Hc).
Qed.

Lemma length_py_str z : length (py_str z) = String.length (pretty z).
Proof.
  unfold py_str, Json.of_ascii. rewrite length_map.
  induction (pretty z) as [|c s IH]; simpl; [done | by rewrite IH].
Qed.

Lemma utf16_len_py_str z : utf16_len (py_str z) = String.length (pretty z).
Proof.
  rewrite <- length_py_str. apply utf16_len_bmp, Forall_map, Forall_forall.
  intros c _. pose proof (nat_ascii_bounded c). lia.
Qed.

(** ** Decimal digits *)

Lemma pretty_N_go_length_ge x s : (String.length s <= String.length (pretty_N_go x s))%nat.
Proof.
  revert s. induction x as [x IH] using (well_founded_induction N.lt_wf_0). intros s.
  destruct (decide (0 < x)%N) as [Hx|Hx].
  - rewrite pretty_N_go_step by done.
    etrans; [|apply IH; apply N.div_lt; lia]. simpl. lia.
  - by replace x with 0%N by lia.
Qed.

Lemma pow10_succ k : (10 ^ N.of_nat (S k) = 10 * 10 ^ N.of_nat k)%N.
Proof. by rewrite Nat2N.inj_succ, N.pow_succ_r'. Qed.

(** A number of at least [k + 1] digits prints in at least [k + 1]
    characters. *)
Lemma pretty_N_go_length_lo k x s :
  (10 ^ N.of_nat k <= x)%N -> (S k + String.length s <= String.length (pretty_N_go x s))%nat.
Proof.
  revert x s. induction k as [|k IH]; intros x s Hx.
  - rewrite pretty_N_go_step by (simpl in Hx; lia).
    etrans; [|apply pretty_N_go_length_ge]. simpl. lia.
  - rewrite pow10_succ in Hx. assert (Hp : (10 ^ N.of_nat k <> 0)%N) by (apply N.pow_nonzero; lia).
    rewrite pretty_N_go_step by lia. etrans; [|apply IH].
    + simpl. lia.
    + apply N.div_le_lower_bound; lia.
Qed.

(** A number below [10 ^ k] prints in at most [k] characters. *)
Lemma pretty_N_go_length_hi k x s :
  (x < 10 ^ N.of_nat k)%N -> (String.length (pretty_N_go x s) <= k + String.length s)%nat.
Proof.
  revert x s. induction k as [|k IH]; intros x s Hx.
  - simpl in Hx. by replace x with 0%N by lia.
  - destruct (decide (x = 0%N)) as [->|Hx0]; [rewrite pretty_N_go_0; lia|].
    rewrite pow10_succ in Hx. rewrite pretty_N_go_step by lia.
    etrans; [apply IH|].
    + apply N.Div0.div_lt_upper_bound; lia.
    + simpl. lia.
Qed.

Lemma pretty_Z_nonneg (z : Z) :
  0 <= z -> pretty z = if decide (z = 0) then "0" else pretty_N_go (Z.to_N z) String.EmptyString.
Proof. intros Hz. destruct z as [|p|p]; [done | done | lia]. Qed.

Lemma py_str_length_lo k (z : Z) :
  (10 ^ Z.of_nat k <= z) -> (S k <= length (py_str z))%nat.
Proof.
  intros Hz. pose proof (Z.pow_pos_nonneg 10 (Z.of_nat k)) as Hp.
  rewrite length_py_str, pretty_Z_nonneg by lia. rewrite decide_False by lia.
  pose proof (pretty_N_go_length_lo k (Z.to_N z) String.EmptyString) as H. simpl in H.
  rewrite Nat.add_0_r in H. apply H.
  apply N2Z.inj_le. rewrite N2Z.inj_pow, nat_N_Z, Z2N.id by lia. lia.
Qed.

Lemma py_str_length_hi k (z : Z) :
  (1 <= k)%nat -> 0 <= z < 10 ^ Z.of_nat k -> (utf16_len (py_str z) <= k)%nat.
Proof.
  intros Hk Hz. rewrite utf16_len_py_str, pretty_Z_nonneg by lia. case_decide; [simpl; lia|].
  pose proof (pretty_N_go_length_hi k (Z.to_N z) String.EmptyString) as Hl. simpl in Hl.
  rewrite Nat.add_0_r in Hl. apply Hl.
  apply N2Z.inj_lt. rewrite N2Z.inj_pow, nat_N_Z, Z2N.id by lia. lia.
Qed.

(** ** The history texts *)

(** An entry's line, from the decimal strings its JSON text holds. *)
Definition entry_text (e : Entry) : ustr * ustr := (py_str (e_user e), py_str (e_reward e)).

Lemma decode_entries es :
  mapM Json.decode_entry (map Json.entry_json es) = Some (map entry_text es).
Proof.
  induction es as [|e es IH]; [done|]. simpl.
  rewrite IH, Json.entry_json_decode. done.
Qed.

Lemma render_history_entries es :
  render (MsgHistory es) =
    Some (history_header ++ nl ++ py_join nl (map (fun e => entry_line (entry_text e)) es)).
Proof. cbn [render]. unfold render_history. rewrite decode_entries. simpl. by rewrite map_map. Qed.

Lemma render_winners_entries es :
  render (MsgWinners es) =
    Some (winners_header ++ nl ++ foldr (fun e acc => winner_line (entry_text e) ++ acc) [] es).
Proof.
  cbn [render]. unfold render_winners. rewrite decode_entries. cbn [mbind option_bind].
  do 3 f_equal. induction es as [|e es IH]; cbn [foldr map]; [done | by rewrite IH].
Qed.

Lemma utf16_len_py_join_le sep l (L : nat) :
  Forall (fun x => utf16_len x <= L)%nat l ->
  (utf16_len (py_join sep l) <= length l * (L + utf16_len sep))%nat.
Proof.
  induction 1 as [|x l Hx Hl IH]; [simpl; lia|].
  destruct l as [|y l]; simpl in *; [lia|].
  rewrite !utf16_len_app. simpl in *. lia.
Qed.

(** A line of [/rewards] for a 64-bit member id and a reward id in
    [1, 200] takes at most 35 UTF-16 units. *)
Lemma utf16_len_entry_line e :
  0 <= e_user e < 2 ^ 63 -> 1 <= e_reward e <= 200 ->
  (utf16_len (entry_line (entry_text e)) <= 35)%nat.
Proof.
  intros Hu Hr. unfold entry_line, entry_text. cbn [fst snd].
  rewrite !utf16_len_app.
  pose proof (py_str_length_hi 19 (e_user e) ltac:(lia) ltac:(simpl; lia)).
  pose proof (py_str_length_hi 3 (e_reward e) ltac:(lia) ltac:(simpl; lia)).
  change (utf16_len (lit "<@")) with 2%nat. change (utf16_len (lit "> → Reward ")) with 11%nat. lia.
Qed.

(** A line of [/last-winners] for a member id of at least 17 digits takes
    at least 34 code points. *)
Lemma length_winner_line e :
  10 ^ 16 <= e_user e -> 1 <= e_reward e ->
  (34 <= length (winner_line (entry_text e)))%nat.
Proof.
  intros Hu Hr. unfold winner_line, entry_line, entry_text. cbn [fst snd].
  rewrite !length_app.
  pose proof (py_str_length_lo 16 (e_user e) ltac:(simpl; lia)).
  pose proof (py_str_length_lo 0 (e_reward e) ltac:(simpl; lia)).
  change (length (lit "- ")) with 2%nat. change (length (lit "<@")) with 2%nat.
  change (length (lit "> → Reward ")) with 11%nat. change (length nl) with 1%nat. lia.
Qed.

Lemma length_winners es :
  Forall (fun e => 10 ^ 16 <= e_user e /\ 1 <= e_reward e) es ->
  (34 * length es <= length (foldr (fun e acc => winner_line (entry_text e) ++ acc) [] es))%nat.
Proof.
  induction 1 as [|e es [Hu Hr] Hes IH]; [simpl; lia|].
  cbn [foldr length]. rewrite length_app.
  pose proof (length_winner_line e Hu Hr). lia.
Qed.

(** C29:  The [/rewards] answer on a non-empty history: the text, decoded from
    the JSON strings bot.py:49 stored, names in decimal the member and the
    reward of each of the last ten entries of the history, one line each,
    oldest first. *)
Theorem rewards_text s :
  history s <> [] ->
  exists m, History.rewards s = (Ok [Respond m false], s) /\
    render m = Some (history_header ++ nl ++
      py_join nl (map (fun e => lit "<@" ++ py_str (e_user e) ++ lit "> → Reward " ++ py_str (e_reward e))
                      (History.last_n 10 (history s)))).
Proof.
  intros Hh. rewrite History.rewards_spec.
  destruct (History.last_n 10 (history s)) as [|e es] eqn:El.
  - apply History.last_n_nil in El as [El|El]; [done | lia].
  - eexists. split; [reflexivity|]. rewrite render_history_entries. by rewrite <- El.
Qed.

(** ** Message length *)

(** C27:    Every answer of [/rewards] fits in a Discord message: with member
    ids that are 64-bit and not negative and reward ids in [1, 200] (the
    pool only ever holds those, Interleaving.interleaved_ids_ok), the text
    of its at most ten lines takes at most 2000 UTF-16 units, so at most
    2000 code points. *)
Theorem rewards_text_fits s :
  Forall (fun e => 0 <= e_user e < 2 ^ 63 /\ 1 <= e_reward e <= 200) (history s) ->
  exists m t, History.rewards s = (Ok [Respond m false], s) /\ render m = Some t /\
              (utf16_len t <= discord_limit)%nat.
Proof.
  intros Hf. unfold History.rewards. se_unfold. change (-10) with (- (10)).
  rewrite History.lrange_history. cbn [Z.ltb Z.compare].
  match goal with |- context [drop ?n ?l] => remember (drop n l) as h eqn:Eh end.
  assert (Hh : Forall (fun e => 0 <= e_user e < 2 ^ 63 /\ 1 <= e_reward e <= 200) h)
    by (subst h; by apply Forall_drop).
  assert (Hlen : (length h <= 10)%nat) by (subst h; rewrite length_drop; lia).
  destruct h as [|e es]; (eexists _, _; split; [reflexivity|]).
  - split; [reflexivity|]. vm_compute. lia.
  - split; [apply render_history_entries|].
    pose proof (utf16_len_py_join_le nl (map (fun e => entry_line (entry_text e)) (e :: es)) 35)
      as Hj.
    rewrite length_map in Hj. rewrite !utf16_len_app.
    change (utf16_len history_header) with 11%nat. change (utf16_len nl) with 1%nat.
    cut (utf16_len (py_join nl (map (fun e => entry_line (entry_text e)) (e :: es))) <= 360)%nat;
      [unfold discord_limit; lia|].
    etrans; [apply Hj|]; [|simpl in *; lia].
    apply Forall_fmap. eapply Forall_impl; [exact Hh|]. intros x [Hu Hr]. by apply utf16_len_entry_line.
Qed.

(** C26:    [/last-winners count] with [count >= 59], on a history of at least
    59 entries whose members have Discord ids of 17 digits or more, builds
    a text of more than 2000 code points: Discord refuses it and
    [send_message] raises, so the administrator gets no list.  The same
    holds for [/last-winners 0] or a negative count, which show the whole
    history (History.last_winners_zero). *)
Theorem last_winners_text_too_long count s :
  59 <= count -> (59 <= length (history s))%nat ->
  Forall (fun e => 10 ^ 16 <= e_user e /\ 1 <= e_reward e) (history s) ->
  exists es t, History.last_winners count s = (Ok [Respond (MsgWinners es) false], s) /\
    render (MsgWinners es) = Some t /\ (discord_limit < length t)%nat.
Proof.
  intros Hc Hl Hf. rewrite History.last_winners_spec.
  rewrite (proj2 (Z.ltb_lt 0 count)) by lia.
  match goal with |- context [drop ?n ?l] => remember (drop n l) as h eqn:Eh end.
  assert (Hh : Forall (fun e => 10 ^ 16 <= e_user e /\ 1 <= e_reward e) h)
    by (subst h; by apply Forall_drop).
  assert (Hlen : (59 <= length h)%nat) by (subst h; rewrite length_drop; lia).
  destruct h as [|e es]; [simpl in Hlen; lia|].
  eexists _, _. split; [reflexivity|]. split; [apply render_winners_entries|].
  rewrite !length_app. pose proof (length_winners _ Hh) as Hw.
  change (length winners_header) with 19%nat. unfold discord_limit. lia.
Qed.

(** ** Witnesses *)

Definition w_two : Store :=
  mkStore ∅ [] [mkEntry 912376040142307419 5; mkEntry 801879772421423115 200].

Lemma rewards_text_fits_witness :
  exists m t, History.rewards w_two = (Ok [Respond m false], w_two) /\ render m = Some t /\
              (utf16_len t <= discord_limit)%nat.
Proof. apply rewards_text_fits. repeat constructor; simpl; lia. Defined.

Lemma rewards_text_witness :
  history w_two <> [] /\
  exists m, History.rewards w_two = (Ok [Respond m false], w_two) /\
    render m = Some (history_header ++ nl ++
      py_join nl (map (fun e => lit "<@" ++ py_str (e_user e) ++ lit "> → Reward " ++ py_str (e_reward e))
                      (History.last_n 10 (history w_two)))).
Proof. split; [discriminate | apply rewards_text; discriminate]. Defined.

Definition w_many : Store := mkStore ∅ [] (replicate 60 (mkEntry 912376040142307419 5)).

Lemma last_winners_text_too_long_witness :
  exists es t, History.last_winners 60 w_many = (Ok [Respond (MsgWinners es) false], w_many) /\
    render (MsgWinners es) = Some t /\ (discord_limit < length t)%nat.
Proof.
  apply last_winners_text_too_long; [lia | simpl; lia |].
  apply Forall_replicate. simpl. lia.
Defined.

End Render.
