(* ===== verification/Shards.v ===== *)
(** * The shard ledger: [/give-shards], [/remove-shards], [/shards]

    [give_shards] is bot.py:129-135: refuse a non-positive amount, INCRBY,
    then GET the new total.  [remove_shards] is bot.py:140-153: refuse a
    non-positive amount, GET the balance, refuse when it is below the amount,
    DECRBY, GET the new total.  [shards] is bot.py:157-160: GET.

    The theorems give each handler's result on each branch: the refusals
    write nothing; a credit adds exactly the amount; a debit of at most the
    balance removes exactly the amount; a credit that would leave the 64-bit
    range raises ([ResponseError]) with nothing written and no answer. *)

From S2P Require Import Prelude Redis Discord.

Module Shards.

(** bot.py:129-135 *)
Definition give_shards (member amount : Z) : Handler :=
  if amount <=? 0 then se_ret [Respond MsgAmountNotPositive true]
  else
    R.incrby (KShards member) amount ;;;
    t <- R.get (KShards member) ;;
    let total := default 0 t in
    se_ret [Respond (MsgShardsGiven amount member total) false].

(** bot.py:140-153 *)
Definition remove_shards (member amount : Z) : Handler :=
  if amount <=? 0 then se_ret [Respond MsgAmountNotPositive true]
  else
    c <- R.get (KShards member) ;;
    let current := default 0 c in
    if current <? amount then se_ret [Respond (MsgShardsTooFew member current amount) true]
    else
      R.decrby (KShards member) amount ;;;
      t <- R.get (KShards member) ;;
      let total := default 0 t in
      se_ret [Respond (MsgShardsRemoved amount member total) false].

(** bot.py:157-160 *)
Definition shards (user_id : Z) : Handler :=
  t <- R.get (KShards user_id) ;;
  let total := default 0 t in
  se_ret [Respond (MsgShardTotal total) false].

(** ** Branches *)

Section Branches.
Context (m amount : Z) (s : Store).

(** A credit of an amount <= 0 is refused privately and writes nothing. *)
Lemma give_shards_not_positive :
  amount <= 0 -> give_shards m amount s = (Ok [Respond MsgAmountNotPositive true], s).
Proof. intros Ha. unfold give_shards. by rewrite (proj2 (Z.leb_le _ _) Ha). Qed.

Lemma remove_shards_not_positive :
  amount <= 0 -> remove_shards m amount s = (Ok [Respond MsgAmountNotPositive true], s).
Proof. intros Ha. unfold remove_shards. by rewrite (proj2 (Z.leb_le _ _) Ha). Qed.

Context (Hpos : 0 < amount).

Lemma give_shards_ok :
  amount <= i64_max -> i64_min <= counter s (KShards m) ->
  counter s (KShards m) + amount <= i64_max ->
  give_shards m amount s =
    (Ok [Respond (MsgShardsGiven amount m (counter s (KShards m) + amount)) false],
     set_counter (KShards m) (counter s (KShards m) + amount) s).
Proof.
  intros Ha Hlo Hhi. unfold give_shards.
  rewrite (proj2 (Z.leb_gt _ _) Hpos). se_unfold.
  rewrite incrby_ok; unfold i64_min, i64_max in *; try lia.
  unfold R.get. simpl. by rewrite lookup_insert_eq.
Qed.

(** C31:      A credit that would take the balance past 2^63 - 1 raises the
    overflow error of INCRBY: nothing is written and nothing answered. *)
Lemma give_shards_overflow :
  amount <= i64_max -> i64_max < counter s (KShards m) + amount ->
  give_shards m amount s = (Raise ErrOverflow, s).
Proof.
  intros Ha Hhi. unfold give_shards.
  rewrite (proj2 (Z.leb_gt _ _) Hpos). se_unfold.
  rewrite incrby_overflow; unfold i64_min, i64_max in *; [done | lia | lia].
Qed.

Lemma give_shards_not_integer :
  i64_max < amount -> give_shards m amount s = (Raise ErrNotInteger, s).
Proof.
  intros Ha. unfold give_shards.
  rewrite (proj2 (Z.leb_gt _ _) Hpos). se_unfold. unfold R.incrby.
  destruct (in_i64 amount) eqn:E; [apply in_i64_spec in E; lia | done].
Qed.

Lemma remove_shards_too_few :
  counter s (KShards m) < amount ->
  remove_shards m amount s =
    (Ok [Respond (MsgShardsTooFew m (counter s (KShards m)) amount) true], s).
Proof.
  intros Hlt. unfold remove_shards.
  rewrite (proj2 (Z.leb_gt _ _) Hpos). se_unfold. unfold R.get. simpl.
  unfold counter in Hlt. by rewrite (proj2 (Z.ltb_lt _ _) Hlt).
Qed.

(** C30:      A debit of a positive amount at most the balance removes exactly that
    amount and reports the new total. *)
Lemma remove_shards_ok :
  amount <= counter s (KShards m) <= i64_max ->
  remove_shards m amount s =
    (Ok [Respond (MsgShardsRemoved amount m (counter s (KShards m) - amount)) false],
     set_counter (KShards m) (counter s (KShards m) - amount) s).
Proof.
  intros Hc. unfold remove_shards.
  rewrite (proj2 (Z.leb_gt _ _) Hpos). se_unfold. unfold R.get at 1. simpl.
  fold (counter s (KShards m)).
  rewrite (proj2 (Z.ltb_ge _ _) (proj1 Hc)). unfold R.decrby.
  assert (Hin : in_i64 amount = true) by (apply in_i64_spec; unfold i64_min, i64_max in *; lia).
  rewrite Hin. simpl.
  replace (amount =? i64_min) with false by (symmetry; apply Z.eqb_neq; unfold i64_min; lia).
  rewrite incrby_ok; unfold i64_min, i64_max in *; try lia.
  unfold R.get. simpl. by rewrite lookup_insert_eq.
Qed.
End Branches.

Lemma shards_spec u s : shards u s = (Ok [Respond (MsgShardTotal (counter s (KShards u))) false], s).
Proof. reflexivity. Qed.

(** ** Witnesses *)

Definition w_shards : Store := mkStore {[KShards 7 := 10]} [] [].

Lemma remove_shards_ok_witness :
  remove_shards 7 4 w_shards =
    (Ok [Respond (MsgShardsRemoved 4 7 (counter w_shards (KShards 7) - 4)) false],
     set_counter (KShards 7) (counter w_shards (KShards 7) - 4) w_shards).
Proof. apply remove_shards_ok; vm_compute; [reflexivity | split; congruence]. Defined.

Lemma give_shards_overflow_witness :
  give_shards 7 i64_max w_shards = (Raise ErrOverflow, w_shards).
Proof. apply give_shards_overflow; vm_compute; congruence. Defined.

Lemma give_shards_not_positive_witness :
  give_shards 7 (-5) w_shards = (Ok [Respond MsgAmountNotPositive true], w_shards).
Proof. apply give_shards_not_positive. lia. Defined.

End Shards.
