(* ===== verification/Bot.v ===== *)
(** * The bot: command dispatch and the sequential state machine

    [dispatch] routes one slash-command request to its handler, as the
    [@bot.tree.command] table of bot.py does, after the permission check of
    [@app_commands.checks.has_permissions(administrator=True)] on the six
    admin commands: a request from a non-administrator raises
    [CheckFailure] before the handler runs.  A Redis error raised inside a
    handler ends the request with the writes done so far kept.

    One bot process runs every handler on one asyncio event loop with a
    blocking Redis client, and no handler awaits between two Redis commands;
    so in one process the handlers run one after the other, each as a single
    step.  [reachable] is that state machine.  The theorems show by rule
    induction that it keeps every counter in [0, 2^63 - 1] (no ticket or
    shard balance ever goes negative), keeps the pool free of duplicates and
    inside [1, 200], and only appends to the history; [run] serves a list
    of requests, and no member ever wins more rewards than the tickets they
    held plus those granted to them ([wins_bounded_by_tickets]).  A member
    without the administrator permission can change no counter but their
    own ticket counter and is refused the six administrative commands
    ([non_admin_request]). *)

From S2P Require Import Prelude Redis Discord Gacha Pool History Shards.

Module Bot.

Inductive Command :=
| CGacha (k : nat)                        (** /gacha, with the random draw *)
| CAddTicket (member : Z)                  (** /add-gachaticket *)
| CRemaining                               (** /remaining-rewards *)
| CReset                                   (** /reset-gacha *)
| CRewards                                 (** /rewards *)
| CLastWinners (count : Z)                 (** /last-winners *)
| CGiveShards (member amount : Z)          (** /give-shards *)
| CRemoveShards (member amount : Z)        (** /remove-shards *)
| CShards.                                 (** /shards *)

Record Request := mkRequest {
  caller : Z;              (** interaction.user.id *)
  caller_admin : bool;     (** the caller has the administrator permission *)
  channel_found : bool;    (** bot.get_channel(REWARD_CHANNEL) is not None *)
  cmd : Command
}.

Inductive bot_error :=
| CheckFailure
| RedisError (e : redis_error).

(** The commands decorated with [has_permissions(administrator=True)]. *)
Definition needs_admin (c : Command) : bool :=
  match c with
  | CAddTicket _ | CRemaining | CReset | CLastWinners _
  | CGiveShards _ _ | CRemoveShards _ _ => true
  | CGacha _ | CRewards | CShards => false
  end.

Definition handler_of (rq : Request) : Handler :=
  match cmd rq with
  | CGacha k => Gacha.gacha (channel_found rq) k (caller rq)
  | CAddTicket m => Gacha.add_ticket m
  | CRemaining => Pool.remaining
  | CReset => Pool.reset
  | CRewards => History.rewards
  | CLastWinners n => History.last_winners n
  | CGiveShards m a => Shards.give_shards m a
  | CRemoveShards m a => Shards.remove_shards m a
  | CShards => Shards.shards (caller rq)
  end.

Definition dispatch (rq : Request) (s : Store) : result bot_error (list Out) * Store :=
  if needs_admin (cmd rq) && negb (caller_admin rq) then (Raise CheckFailure, s)
  else
    match handler_of rq s with
    | (Ok outs, s') => (Ok outs, s')
    | (Raise e, s') => (Raise (RedisError e), s')
    end.

(** The stores one bot process reaches from [s0]. *)
Inductive reachable (s0 : Store) : Store -> Prop :=
| reach_init : reachable s0 s0
| reach_step s rq : reachable s0 s -> reachable s0 (final (dispatch rq s)).

(** ** The store invariant *)

Definition counters_ok (m : gmap ckey Z) : Prop :=
  forall k v, m !! k = Some v -> 0 <= v <= i64_max.

Definition pool_ok (l : list Z) : Prop := NoDup l /\ Forall (fun x => 1 <= x <= 200) l.

Definition wf (s : Store) : Prop := counters_ok (counters s) /\ pool_ok (remaining s).

Lemma counter_range s k : counters_ok (counters s) -> 0 <= counter s k <= i64_max.
Proof.
  intros H. unfold counter. destruct (counters s !! k) eqn:E; simpl.
  - by apply (H k).
  - unfold i64_max. lia.
Qed.

Lemma counters_ok_insert m k v :
  counters_ok m -> 0 <= v <= i64_max -> counters_ok (<[k := v]> m).
Proof.
  intros H Hv k' v'. rewrite lookup_insert. case_decide; [congruence | apply H].
Qed.

Lemma pool_ok_initial : pool_ok Pool.initial_rewards.
Proof.
  split; [apply Pool.initial_rewards_NoDup|].
  apply Forall_forall. intros x Hx. by apply Pool.elem_of_initial_rewards.
Qed.

Lemma pool_ok_lrem l v : pool_ok l -> v ∈ l -> pool_ok (fst (lrem_list 1 v l)).
Proof.
  intros [Hnd Hf] Hv. destruct (lrem_list_1_perm l v Hv) as [Hp _].
  rewrite Hp in Hnd, Hf. apply NoDup_cons in Hnd as [_ ?].
  apply Forall_cons in Hf as [_ ?]. by split.
Qed.

#[export] Hint Resolve counters_ok_insert pool_ok_initial pool_ok_lrem : gacha.

Definition empty_store : Store := mkStore ∅ [] [].

Lemma wf_empty_store : wf empty_store.
Proof. split; [intros k v; simpl; by rewrite lookup_empty | split; constructor]. Qed.

(** ** What each handler leaves alone *)

(** Unfold a handler down to its Redis commands and split every branch. *)
Ltac run_all :=
  unfold Gacha.add_ticket, Pool.remaining, History.rewards, History.last_winners,
    Shards.give_shards, Shards.remove_shards, Shards.shards,
    R.incr, R.decr, R.decrby, R.incrby, R.get, R.lrange, set_counter, counter in *;
  se_unfold; repeat (case_match; simpl in *; simplify_eq); simpl; try done.

(** Only [/gacha] and [/reset-gacha] write the pool; only [/gacha] writes
    the history. *)
Lemma handler_frame rq s :
  match cmd rq with
  | CGacha _ | CReset => True
  | _ => remaining (final (handler_of rq s)) = remaining s /\
         history (final (handler_of rq s)) = history s
  end.
Proof. unfold handler_of. destruct (cmd rq); try done; run_all. Qed.

(** ** The counters stay in [0, 2^63 - 1] *)

(** Turn the 64-bit range tests of the Redis commands into arithmetic. *)
Ltac i64_facts :=
  repeat match goal with
  | H : negb (in_i64 _) = false |- _ => apply negb_false_iff in H
  | H : in_i64 _ = true |- _ => apply in_i64_spec in H
  end;
  unfold i64_min, i64_max in *.

(** Add the invariant's bounds for every counter read in the goal. *)
Ltac bound_counter Hc s k :=
  lazymatch goal with
  | _ : 0 <= default 0 (counters s !! k) <= _ |- _ => fail
  | _ => let B := fresh "B" in pose proof (counter_range s k Hc) as B; unfold counter in B
  end.

Ltac bound_counters Hc :=
  repeat match goal with
  | _ : context [default 0 (counters ?s !! ?k)] |- _ => bound_counter Hc s k
  | |- context [default 0 (counters ?s !! ?k)] => bound_counter Hc s k
  end.

Lemma gacha_counters_ok chan k u s :
  counters_ok (counters s) -> counters_ok (counters (final (Gacha.gacha chan k u s))).
Proof.
  intros Hc. pose proof (counter_range s (KTickets u) Hc).
  destruct (Z_le_gt_dec (counter s (KTickets u)) 0).
  - by rewrite Gacha.gacha_no_ticket.
  - destruct (remaining s) eqn:E.
    + rewrite Gacha.gacha_empty_pool by (done || lia). apply counters_ok_insert; [done | lia].
    + rewrite Gacha.gacha_win by (rewrite ?E; done || lia). apply counters_ok_insert; [done | lia].
Qed.

Lemma handler_counters_ok rq s :
  counters_ok (counters s) -> counters_ok (counters (final (handler_of rq s))).
Proof.
  intros Hc. unfold handler_of.
  destruct (cmd rq); [by apply gacha_counters_ok | | | by rewrite Pool.reset_effect | ..].
  all: run_all; bound_counters Hc; zbool.
  all: apply counters_ok_insert; [done | i64_facts; lia].
Qed.

Lemma gacha_pool_ok chan k u s :
  counters_ok (counters s) -> pool_ok (remaining s) ->
  pool_ok (remaining (final (Gacha.gacha chan k u s))).
Proof.
  intros Hc Hp. pose proof (counter_range s (KTickets u) Hc).
  destruct (Z_le_gt_dec (counter s (KTickets u)) 0).
  - by rewrite Gacha.gacha_no_ticket.
  - destruct (decide (remaining s = [])) as [E|E].
    + by rewrite Gacha.gacha_empty_pool by (done || lia).
    + rewrite Gacha.gacha_win by (done || lia). simpl.
      apply pool_ok_lrem; [done|]. by apply Gacha.random_choice_elem.
Qed.

Lemma handler_wf rq s : wf s -> wf (final (handler_of rq s)).
Proof.
  intros [Hc Hp]. split; [by apply handler_counters_ok|].
  pose proof (handler_frame rq s) as Hf. unfold handler_of in *.
  destruct (cmd rq); try (destruct Hf as [Hr ?]; rewrite ?Hr; done).
  - by apply gacha_pool_ok.
  - rewrite Pool.reset_effect. apply pool_ok_initial.
Qed.

Lemma dispatch_final rq s :
  final (dispatch rq s) =
  if needs_admin (cmd rq) && negb (caller_admin rq) then s else final (handler_of rq s).
Proof. unfold dispatch. destruct (_ && _); [done|]. by destruct (handler_of rq s) as [[] ?]. Qed.

(** In one bot process every reachable store satisfies the invariant: all
    ticket and shard counters stay in [0, 2^63 - 1] and the pool has no
    duplicate and only ids of [1, 200]. *)
Theorem reachable_wf s0 s : wf s0 -> reachable s0 s -> wf s.
Proof.
  intros H0 Hr. induction Hr as [|s rq _ IH]; [done|].
  rewrite dispatch_final. destruct (_ && _); [done|]. by apply handler_wf.
Qed.

(** The history only grows at its end. *)
Lemma handler_history_prefix rq s :
  wf s -> history s `prefix_of` history (final (handler_of rq s)).
Proof.
  intros [Hc _]. pose proof (handler_frame rq s) as Hf. unfold handler_of in *.
  destruct (cmd rq); try (destruct Hf as [? Hh]; rewrite ?Hh; done).
  - pose proof (counter_range s (KTickets (caller rq)) Hc).
    destruct (Z_le_gt_dec (counter s (KTickets (caller rq))) 0).
    + by rewrite Gacha.gacha_no_ticket.
    + destruct (decide (remaining s = [])) as [E|E].
      * by rewrite Gacha.gacha_empty_pool by (done || lia).
      * rewrite Gacha.gacha_win by (done || lia). simpl.
        by apply prefix_app_r.
Qed.

(** C18:      Executed one request at a time, the history only grows at its end:
    the history of the start store is a prefix of every later one. *)
Theorem reachable_history_prefix s0 s :
  wf s0 -> reachable s0 s -> history s0 `prefix_of` history s.
Proof.
  intros H0 Hr. induction Hr as [|s rq Hr IH]; [done|].
  rewrite dispatch_final. destruct (_ && _); [done|].
  etrans; [exact IH|]. apply handler_history_prefix. by apply (reachable_wf s0).
Qed.

(** ** Epochs: the pool and the draws since the last reset

    The ghost fields of [Sys] record, at the last [/reset-gacha] that ran,
    the length of the history ([epoch_mark]) and the pool it installed
    ([epoch_pool]); they are not in the store, they only name the epoch.
    [drawn] is the list of rewards won since then. *)

Record Sys := mkSys { sys_store : Store; epoch_mark : nat; epoch_pool : list Z }.

Definition resets (rq : Request) : bool :=
  match cmd rq with CReset => caller_admin rq | _ => false end.

Definition sys_step (rq : Request) (σ : Sys) : Sys :=
  let s' := final (dispatch rq (sys_store σ)) in
  if resets rq then mkSys s' (length (history s')) Pool.initial_rewards
  else mkSys s' (epoch_mark σ) (epoch_pool σ).

Definition sys_init (s0 : Store) : Sys := mkSys s0 (length (history s0)) (remaining s0).

Inductive sys_reachable (σ0 : Sys) : Sys -> Prop :=
| sreach_init : sys_reachable σ0 σ0
| sreach_step σ rq : sys_reachable σ0 σ -> sys_reachable σ0 (sys_step rq σ).

Definition drawn (σ : Sys) : list Z :=
  map e_reward (drop (epoch_mark σ) (history (sys_store σ))).

Definition conserved (σ : Sys) : Prop :=
  remaining (sys_store σ) ++ drawn σ ≡ₚ epoch_pool σ /\
  (epoch_mark σ <= length (history (sys_store σ)))%nat.

Lemma sys_reachable_store σ0 σ :
  sys_reachable σ0 σ -> reachable (sys_store σ0) (sys_store σ).
Proof.
  induction 1 as [|σ rq _ IH]; [constructor|].
  unfold sys_step. destruct (resets rq); by constructor.
Qed.

(** Moving a drawn reward from the pool to the end of the draws. *)
Lemma draw_perm (pool d : list Z) r :
  r ∈ pool -> fst (lrem_list 1 r pool) ++ d ++ [r] ≡ₚ pool ++ d.
Proof.
  intros Hr. destruct (lrem_list_1_perm pool r Hr) as [Hp _].
  transitivity ((r :: fst (lrem_list 1 r pool)) ++ d); [|by rewrite <- Hp].
  rewrite (Permutation_app_comm d [r]). simpl. symmetry. apply Permutation_middle.
Qed.

Lemma gacha_conserved chan k u (σ : Sys) :
  wf (sys_store σ) -> conserved σ ->
  conserved (mkSys (final (Gacha.gacha chan k u (sys_store σ))) (epoch_mark σ) (epoch_pool σ)).
Proof.
  destruct σ as [s m p]. unfold conserved, drawn. simpl. intros [Hc _] [Hp Hm].
  pose proof (counter_range s (KTickets u) Hc).
  destruct (Z_le_gt_dec (counter s (KTickets u)) 0).
  - by rewrite Gacha.gacha_no_ticket.
  - destruct (decide (remaining s = [])) as [E|E].
    + by rewrite Gacha.gacha_empty_pool by (done || lia).
    + rewrite Gacha.gacha_win by (done || lia). simpl.
      rewrite drop_app_le, map_app, length_app by done. simpl. split; [|lia].
      rewrite draw_perm; [done|]. by apply Gacha.random_choice_elem.
Qed.

Lemma sys_step_conserved rq σ :
  wf (sys_store σ) -> conserved σ -> conserved (sys_step rq σ).
Proof.
  intros Hwf Hcons. unfold sys_step, resets.
  rewrite dispatch_final. destruct (needs_admin (cmd rq) && negb (caller_admin rq)) eqn:Ea.
  - destruct (cmd rq); try done. simpl in Ea. destruct (caller_admin rq); done.
  - pose proof (handler_frame rq (sys_store σ)) as Hf. unfold handler_of in *.
    destruct (cmd rq); try (destruct Hf as [Hr Hh]; unfold conserved, drawn in *; simpl;
                            rewrite ?Hr, ?Hh; done).
    + by apply gacha_conserved.
    + simpl in Ea. destruct (caller_admin rq); [|done].
      rewrite Pool.reset_effect. unfold conserved, drawn. cbn [sys_store epoch_mark epoch_pool final snd history remaining].
      split; [|done]. rewrite drop_all. cbn [map]. by rewrite app_nil_r.
Qed.

Lemma sys_reachable_conserved s0 σ :
  wf s0 -> sys_reachable (sys_init s0) σ -> conserved σ.
Proof.
  intros H0 Hr. induction Hr as [|σ rq Hr IH].
  - unfold conserved, drawn, sys_init. simpl. rewrite drop_all. simpl.
    by rewrite app_nil_r.
  - apply sys_step_conserved; [|done].
    eapply reachable_wf; [exact H0|]. apply (sys_reachable_store _ _ Hr).
Qed.

(** C1:      Within an epoch started by [/reset-gacha], executed one request at a
    time: the rewards left in the pool and the rewards won since the reset
    number 200 together, no reward has been won twice, and no reward won is
    still in the pool. *)
Theorem epoch_accounting s0 σ :
  wf s0 -> sys_reachable (sys_init s0) σ -> epoch_pool σ = Pool.initial_rewards ->
  (length (remaining (sys_store σ)) + length (drawn σ) = 200)%nat /\
  NoDup (drawn σ) /\
  (forall r, r ∈ drawn σ -> r ∉ remaining (sys_store σ)).
Proof.
  intros H0 Hr Hp. destruct (sys_reachable_conserved s0 σ H0 Hr) as [Hc _].
  rewrite Hp in Hc. pose proof Pool.initial_rewards_NoDup as Hnd. rewrite <- Hc in Hnd.
  apply NoDup_app in Hnd as (_ & Hdisj & Hnd). split_and!.
  - rewrite <- length_app, Hc. apply Pool.length_initial_rewards.
  - done.
  - intros r Hd Hrem. by apply (Hdisj r).
Qed.

(** C5:      In one bot process, from a well-formed store, no member's ticket or
    shard balance is ever negative, and the pool never holds a reward
    twice. *)
Theorem balances_nonneg s0 s :
  wf s0 -> reachable s0 s ->
  (forall u, 0 <= counter s (KTickets u) /\ 0 <= counter s (KShards u)) /\
  NoDup (remaining s).
Proof.
  intros H0 Hr. destruct (reachable_wf s0 s H0 Hr) as [Hc [Hnd _]].
  split; [|done]. intros u.
  pose proof (counter_range s (KTickets u) Hc). pose proof (counter_range s (KShards u) Hc).
  lia.
Qed.

(** ** What a member without the administrator permission can do *)

(** [/gacha] writes no counter but the caller's ticket counter. *)
Lemma gacha_counter_frame chan k u s k' :
  k' <> KTickets u -> counter (final (Gacha.gacha chan k u s)) k' = counter s k'.
Proof.
  intros Hne. unfold Gacha.gacha, R.lrem, R.rpush. run_all.
  all: by rewrite lookup_insert_ne by congruence.
Qed.

(** C19:  A request from a member without the administrator permission: it
    changes no counter but the caller's own ticket counter; [/gacha] runs
    (whatever it then does, it is not refused), [/rewards] and [/shards]
    are answered and write nothing, and each of the six other commands,
    the administrative operations of the specification, is refused with the
    store untouched. *)
Theorem non_admin_request rq s :
  caller_admin rq = false ->
  (forall k, k <> KTickets (caller rq) -> counter (final (dispatch rq s)) k = counter s k) /\
  match cmd rq with
  | CGacha _ => fst (dispatch rq s) <> Raise CheckFailure
  | CRewards | CShards => exists outs, dispatch rq s = (Ok outs, s)
  | _ => dispatch rq s = (Raise CheckFailure, s)
  end.
Proof.
  intros Ha. unfold dispatch. rewrite Ha. unfold handler_of.
  destruct (cmd rq) eqn:Ec; cbn [needs_admin andb negb]; try (split; done).
  - destruct (Gacha.gacha _ _ _ s) as [[outs|e] s'] eqn:Eg; (split; [|done]);
      intros k' Hk'; rewrite <- (gacha_counter_frame (channel_found rq) k (caller rq) s k' Hk'), Eg; done.
  - rewrite History.rewards_spec. split; [done | eauto].
  - rewrite Shards.shards_spec. split; [done | eauto].
Qed.

(** ** No member wins more rewards than tickets *)

(** The wins of member [u] in a history. *)
Definition wins (u : Z) (h : list Entry) : nat := length (filter (fun e => e_user e = u) h).

(** A request granting [u] a ticket ([/add-gachaticket u]). *)
Definition is_grant (u : Z) (rq : Request) : bool :=
  match cmd rq with CAddTicket m => bool_decide (m = u) | _ => false end.

Definition grants (u : Z) (rqs : list Request) : nat :=
  length (filter (fun rq => is_grant u rq = true) rqs).

(** One bot process serving the requests [rqs] one after the other. *)
Fixpoint run (rqs : list Request) (s : Store) : Store :=
  match rqs with
  | [] => s
  | rq :: rqs' => run rqs' (final (dispatch rq s))
  end.

Lemma run_reachable s0 s rqs : reachable s0 s -> reachable s0 (run rqs s).
Proof. revert s. induction rqs as [|rq rqs IH]; intros s Hr; [done|]. apply IH. by constructor. Qed.

Lemma wins_app u h1 h2 : wins u (h1 ++ h2) = (wins u h1 + wins u h2)%nat.
Proof. unfold wins. by rewrite filter_app, length_app. Qed.

Lemma wins_entry u v r : wins u [mkEntry v r] = if decide (v = u) then 1%nat else 0%nat.
Proof. unfold wins. rewrite filter_cons. simpl. by destruct (decide (v = u)). Qed.

(** The measure [wins + tickets] of a member: [/gacha] never raises it. *)
Lemma gacha_wins_tickets chan k v u s :
  counters_ok (counters s) ->
  Z.of_nat (wins u (history (final (Gacha.gacha chan k v s)))) +
    counter (final (Gacha.gacha chan k v s)) (KTickets u) <=
  Z.of_nat (wins u (history s)) + counter s (KTickets u).
Proof.
  intros Hc. pose proof (counter_range s (KTickets v) Hc).
  destruct (Z_le_gt_dec (counter s (KTickets v)) 0).
  - rewrite Gacha.gacha_no_ticket by done. cbn [final snd]. lia.
  - destruct (decide (v = u)) as [->|Hne].
    + destruct (decide (remaining s = [])) as [E|E].
      * rewrite Gacha.gacha_empty_pool by (done || lia). cbn [final snd].
        rewrite counter_set_counter_eq. simpl. lia.
      * rewrite Gacha.gacha_win by (done || lia). cbn [final snd history].
        rewrite counter_insert_eq, wins_app, wins_entry, decide_True by done. lia.
    + rewrite gacha_counter_frame by congruence.
      destruct (decide (remaining s = [])) as [E|E].
      * rewrite Gacha.gacha_empty_pool by (done || lia). simpl. lia.
      * rewrite Gacha.gacha_win by (done || lia). cbn [final snd history].
        rewrite wins_app, wins_entry, decide_False by done. lia.
Qed.

(** Every other handler leaves the history and raises a ticket counter only
    when it grants that ticket. *)
Lemma handler_wins_tickets rq s u :
  counters_ok (counters s) ->
  Z.of_nat (wins u (history (final (handler_of rq s)))) + counter (final (handler_of rq s)) (KTickets u) <=
  Z.of_nat (wins u (history s)) + counter s (KTickets u) + (if is_grant u rq then 1 else 0).
Proof.
  intros Hc. unfold is_grant. destruct (cmd rq) eqn:Ec.
  - unfold handler_of. rewrite Ec. pose proof (gacha_wins_tickets (channel_found rq) k (caller rq) u s Hc). lia.
  - unfold handler_of. rewrite Ec. pose proof (counter_range s (KTickets member) Hc).
    destruct (decide (counter s (KTickets member) = i64_max)) as [Hm|Hm].
    + rewrite Gacha.add_ticket_overflow by done. case_bool_decide; simpl; lia.
    + rewrite Gacha.add_ticket_ok by (unfold i64_min in *; lia). cbn [final snd].
      case_bool_decide as Hmu.
      * subst. rewrite counter_set_counter_eq. simpl. lia.
      * rewrite counter_set_counter_ne by congruence. simpl. lia.
  - unfold handler_of. rewrite Ec. rewrite Pool.remaining_spec. unfold counter. simpl. lia.
  - unfold handler_of. rewrite Ec. rewrite Pool.reset_effect. unfold counter. simpl. lia.
  - unfold handler_of. rewrite Ec. rewrite History.rewards_spec. unfold counter. simpl. lia.
  - unfold handler_of. rewrite Ec. rewrite History.last_winners_spec. unfold counter. simpl. lia.
  - pose proof (handler_frame rq s) as Hf. unfold handler_of in *. rewrite Ec in *.
    destruct Hf as [_ Hh]. rewrite Hh.
    unfold Shards.give_shards, R.incrby, set_counter, counter in *; se_unfold.
    repeat (case_match; simpl in *; simplify_eq); simpl; try lia.
    all: rewrite lookup_insert_ne by congruence; lia.
  - pose proof (handler_frame rq s) as Hf. unfold handler_of in *. rewrite Ec in *.
    destruct Hf as [_ Hh]. rewrite Hh.
    unfold Shards.remove_shards, R.get, R.decrby, R.incrby, set_counter, counter in *; se_unfold.
    repeat (case_match; simpl in *; simplify_eq); simpl; try lia.
    all: rewrite lookup_insert_ne by congruence; lia.
  - unfold handler_of. rewrite Ec. rewrite Shards.shards_spec. unfold counter. simpl. lia.
Qed.

(** C6:  In one bot process, from a well-formed store, no member ever holds
    more wins than the tickets they held at the start plus the tickets
    granted to them: each ticket is spent at most once. *)
Theorem wins_bounded_by_tickets s0 rqs u :
  wf s0 ->
  Z.of_nat (wins u (history (run rqs s0))) <=
  Z.of_nat (wins u (history s0)) + counter s0 (KTickets u) + Z.of_nat (grants u rqs).
Proof.
  intros H0.
  assert (Hm : forall s, reachable s0 s ->
    Z.of_nat (wins u (history (run rqs s))) + counter (run rqs s) (KTickets u) <=
    Z.of_nat (wins u (history s)) + counter s (KTickets u) + Z.of_nat (grants u rqs)).
  { induction rqs as [|rq rqs IH]; intros s Hr; [simpl; lia|].
    cbn [run]. etrans; [apply IH; by constructor|].
    destruct (reachable_wf s0 s H0 Hr) as [Hc _].
    pose proof (handler_wins_tickets rq s u Hc) as Hs.
    unfold grants. rewrite filter_cons. rewrite dispatch_final.
    destruct (is_grant u rq); simpl; destruct (_ && _); simpl; lia. }
  pose proof (Hm s0 (reach_init s0)) as H.
  destruct (reachable_wf s0 (run rqs s0) H0 (run_reachable _ _ _ (reach_init s0))) as [Hc _].
  pose proof (counter_range _ (KTickets u) Hc). lia.
Qed.

(** ** Witnesses *)

Definition rq_reset : Request := mkRequest 1 true false CReset.
Definition rq_ticket : Request := mkRequest 1 true false (CAddTicket 7).
Definition rq_gacha : Request := mkRequest 7 false true (CGacha 3).

Definition w_sys : Sys :=
  sys_step rq_gacha (sys_step rq_ticket (sys_step rq_reset (sys_init empty_store))).

Lemma epoch_accounting_witness :
  (length (remaining (sys_store w_sys)) + length (drawn w_sys) = 200)%nat /\
  NoDup (drawn w_sys) /\
  (forall r, r ∈ drawn w_sys -> r ∉ remaining (sys_store w_sys)).
Proof.
  apply (epoch_accounting empty_store w_sys wf_empty_store).
  - unfold w_sys. repeat apply sreach_step. apply sreach_init.
  - reflexivity.
Defined.

Lemma balances_nonneg_witness :
  (forall u, 0 <= counter (sys_store w_sys) (KTickets u) /\
             0 <= counter (sys_store w_sys) (KShards u)) /\
  NoDup (remaining (sys_store w_sys)).
Proof.
  apply (balances_nonneg empty_store (sys_store w_sys) wf_empty_store).
  apply (sys_reachable_store (sys_init empty_store)).
  unfold w_sys. repeat apply sreach_step. apply sreach_init.
Defined.

Lemma reachable_history_prefix_witness :
  history empty_store `prefix_of` history (sys_store w_sys).
Proof.
  apply (reachable_history_prefix empty_store (sys_store w_sys) wf_empty_store).
  apply (sys_reachable_store (sys_init empty_store)).
  unfold w_sys. repeat apply sreach_step. apply sreach_init.
Defined.

Definition w_run : list Request := [rq_reset; rq_ticket; rq_gacha; rq_gacha].

Lemma wins_bounded_by_tickets_witness :
  wf empty_store /\
  Z.of_nat (wins 7 (history (run w_run empty_store))) <=
  Z.of_nat (wins 7 (history empty_store)) + counter empty_store (KTickets 7) + Z.of_nat (grants 7 w_run).
Proof. split; [apply wf_empty_store | apply (wins_bounded_by_tickets empty_store w_run 7 wf_empty_store)]. Defined.

Lemma non_admin_request_witness :
  let rq := mkRequest 7 false false (CGiveShards 7 100) in
  caller_admin rq = false /\
  ((forall k, k <> KTickets (caller rq) ->
      counter (final (dispatch rq empty_store)) k = counter empty_store k) /\
   dispatch rq empty_store = (Raise CheckFailure, empty_store)).
Proof. split; [reflexivity | apply (non_admin_request (mkRequest 7 false false (CGiveShards 7 100))); reflexivity]. Defined.

End Bot.
