(* ===== verification/Runs.v ===== *)
(** * Runs of several requests in one bot process

    The scenarios of the specification, run through the handlers one after
    the other as one bot process executes them: [gachas] is a member
    issuing [/gacha] once per random draw of [ks].  The theorems: with one
    ticket, exactly the first attempt wins and every later one is refused;
    on an empty pool every attempt still consumes a ticket (the code never
    gives it back); a granted ticket is spent by the next [/gacha]; a debit
    above the balance is refused with the balance kept. *)

From S2P Require Import Prelude Redis Discord Gacha Pool History Shards Bot.

Module Runs.

Fixpoint gachas (chan : bool) (u : Z) (ks : list nat) (s : Store)
  : list (result redis_error (list Out)) * Store :=
  match ks with
  | [] => ([], s)
  | k :: ks' =>
      let '(r, s1) := Gacha.gacha chan k u s in
      let '(rs, s2) := gachas chan u ks' s1 in
      (r :: rs, s2)
  end.

(** ** Lemmas *)

Lemma gachas_no_ticket chan u ks s :
  counter s (KTickets u) <= 0 ->
  gachas chan u ks s = (repeat (Ok [Respond MsgNoTicket true]) (length ks), s).
Proof.
  intros Ht. induction ks as [|k ks IH]; [done|]. simpl.
  rewrite Gacha.gacha_no_ticket by done. by rewrite IH.
Qed.

Lemma counter_after_decr s u :
  counter (set_counter (KTickets u) (counter s (KTickets u) - 1) s) (KTickets u) =
  counter s (KTickets u) - 1.
Proof. apply counter_set_counter_eq. Qed.

Lemma gachas_empty_pool chan u ks s :
  remaining s = [] -> Z.of_nat (length ks) <= counter s (KTickets u) <= i64_max ->
  let '(rs, s') := gachas chan u ks s in
  rs = repeat (Ok [Respond MsgNoRewardsLeft false]) (length ks) /\
  counter s' (KTickets u) = counter s (KTickets u) - Z.of_nat (length ks) /\
  remaining s' = [] /\ history s' = history s.
Proof.
  revert s. induction ks as [|k ks IH]; intros s Hr Ht; simpl in *; [split_and!; (done || lia)|].
  rewrite Gacha.gacha_empty_pool by (done || lia).
  specialize (IH (set_counter (KTickets u) (counter s (KTickets u) - 1) s)).
  rewrite counter_after_decr in IH.
  destruct (gachas chan u ks _) as [rs s'].
  destruct IH as (-> & Hc & Hr' & Hh); [done | lia |]. split_and!; [done | lia | done | done].
Qed.

(** ** Scenarios *)

(** C8:      A member with exactly one ticket issuing [/gacha] several times in a
    row, with rewards in the pool: the first attempt wins the reward drawn,
    every later attempt is refused for lack of a ticket, and the ticket
    counter ends at 0 with one history entry added. *)
Theorem one_ticket_one_win chan u k ks s :
  counter s (KTickets u) = 1 -> remaining s <> [] ->
  let r := Gacha.random_choice k (remaining s) in
  let '(rs, s') := gachas chan u (k :: ks) s in
  rs = Ok (Respond (MsgCongrats u r) false ::
           if chan then [Announce (MsgJustWon u r)] else [])
       :: repeat (Ok [Respond MsgNoTicket true]) (length ks) /\
  counter s' (KTickets u) = 0 /\
  history s' = history s ++ [mkEntry u r].
Proof.
  intros Ht Hr r. simpl.
  rewrite Gacha.gacha_win by (rewrite ?Ht; unfold i64_max; lia || done).
  rewrite gachas_no_ticket; rewrite counter_insert_eq; [|lia].
  split_and!; [done | lia | done].
Qed.

(** C9:      On an empty pool every [/gacha] attempt consumes a ticket and none is
    given back: after [n] attempts the member has [n] tickets fewer and has
    won nothing. *)
Theorem empty_pool_burns_tickets chan u ks s :
  remaining s = [] -> Z.of_nat (length ks) <= counter s (KTickets u) <= i64_max ->
  counter (snd (gachas chan u ks s)) (KTickets u) =
    counter s (KTickets u) - Z.of_nat (length ks) /\
  history (snd (gachas chan u ks s)) = history s.
Proof.
  intros Hr Ht. pose proof (gachas_empty_pool chan u ks s Hr Ht) as Hrun.
  destruct (gachas chan u ks s) as [rs s']. simpl. by destruct Hrun as (_ & ? & _ & ?).
Qed.

(** C33:      [/add-gachaticket U] then [/gacha] by U on a non-empty pool: U's
    ticket counter is back to 0, the pool has lost exactly the reward won,
    and the history has gained the entry [{U, reward}]. *)
Theorem grant_then_redeem chan k u s :
  Bot.wf s -> counter s (KTickets u) = 0 -> remaining s <> [] ->
  let s1 := final (Gacha.add_ticket u s) in
  let r := Gacha.random_choice k (remaining s) in
  exists outs s2, Gacha.gacha chan k u s1 = (Ok outs, s2) /\
    counter s2 (KTickets u) = 0 /\
    remaining s ≡ₚ r :: remaining s2 /\
    history s2 = history s ++ [mkEntry u r].
Proof.
  intros Hwf Ht Hr s1 r. subst s1.
  rewrite Gacha.add_ticket_ok by (rewrite Ht; unfold i64_min, i64_max; lia).
  cbn [final snd]. rewrite Ht.
  rewrite Gacha.gacha_win; [| rewrite counter_set_counter_eq; unfold i64_max; lia | by simpl].
  eexists _, _. split; [reflexivity|].
  rewrite counter_insert_eq, counter_set_counter_eq. split_and!; [lia | | done].
  apply lrem_list_1_perm. by apply Gacha.random_choice_elem.
Qed.

(** C32:      [/give-shards U 10] then [/remove-shards U 15] for a member with no
    shards: the debit is refused as above the balance, and the balance stays
    10. *)
Theorem give_then_remove_too_few u s :
  counter s (KShards u) = 0 ->
  let s1 := final (Shards.give_shards u 10 s) in
  Shards.remove_shards u 15 s1 = (Ok [Respond (MsgShardsTooFew u 10 15) true], s1) /\
  counter s1 (KShards u) = 10.
Proof.
  intros Hs s1. subst s1.
  rewrite Shards.give_shards_ok; rewrite ?Hs; unfold i64_min, i64_max; try lia.
  simpl. rewrite counter_set_counter_eq.
  rewrite Shards.remove_shards_too_few; rewrite ?counter_set_counter_eq; [done | lia | lia].
Qed.

(**   A member never granted a ticket (no ["tickets:<id>"] key) who issues
    [/gacha] is refused privately, nothing is written, and the ticket
    balance still reads 0. *)
Theorem fresh_user_no_ticket chan k u s :
  counters s !! KTickets u = None ->
  Gacha.gacha chan k u s = (Ok [Respond MsgNoTicket true], s) /\ counter s (KTickets u) = 0.
Proof.
  intros Hn. assert (H0 : counter s (KTickets u) = 0) by (unfold counter; by rewrite Hn).
  split; [|done]. apply Gacha.gacha_no_ticket. lia.
Qed.

(** ** Witnesses *)

Definition w_one : Store := mkStore {[KTickets 7 := 1]} [3; 5; 8] [].

Lemma one_ticket_one_win_witness :
  let r := Gacha.random_choice 2 (remaining w_one) in
  let '(rs, s') := gachas true 7 [2; 0; 1]%nat w_one in
  rs = Ok (Respond (MsgCongrats 7 r) false :: [Announce (MsgJustWon 7 r)])
       :: repeat (Ok [Respond MsgNoTicket true]) (length [0; 1]%nat) /\
  counter s' (KTickets 7) = 0 /\
  history s' = history w_one ++ [mkEntry 7 r].
Proof. apply (one_ticket_one_win true 7 2 [0; 1]%nat w_one); [reflexivity | discriminate]. Defined.

Lemma empty_pool_burns_tickets_witness :
  counter (snd (gachas false 7 [0; 1; 2]%nat (mkStore {[KTickets 7 := 5]} [] []))) (KTickets 7) =
    counter (mkStore {[KTickets 7 := 5]} [] []) (KTickets 7) - Z.of_nat (length [0; 1; 2]%nat) /\
  history (snd (gachas false 7 [0; 1; 2]%nat (mkStore {[KTickets 7 := 5]} [] []))) =
    history (mkStore {[KTickets 7 := 5]} [] []).
Proof. apply empty_pool_burns_tickets; [reflexivity | vm_compute; split; congruence]. Defined.

Lemma grant_then_redeem_witness :
  let s1 := final (Gacha.add_ticket 7 (mkStore ∅ [3; 5] [])) in
  let r := Gacha.random_choice 1 [3; 5] in
  exists outs s2, Gacha.gacha false 1 7 s1 = (Ok outs, s2) /\
    counter s2 (KTickets 7) = 0 /\
    [3; 5] ≡ₚ r :: remaining s2 /\
    history s2 = [] ++ [mkEntry 7 r].
Proof.
  apply (grant_then_redeem false 1 7 (mkStore ∅ [3; 5] [])); [| reflexivity | discriminate].
  split; [intros k v; simpl; by rewrite lookup_empty |].
  split; [apply (bool_decide_unpack _); vm_compute; reflexivity |].
  repeat constructor; lia.
Defined.

Lemma give_then_remove_too_few_witness :
  let s1 := final (Shards.give_shards 7 10 Bot.empty_store) in
  Shards.remove_shards 7 15 s1 = (Ok [Respond (MsgShardsTooFew 7 10 15) true], s1) /\
  counter s1 (KShards 7) = 10.
Proof. apply give_then_remove_too_few. reflexivity. Defined.

Lemma fresh_user_no_ticket_witness :
  Gacha.gacha true 0 7 Bot.empty_store = (Ok [Respond MsgNoTicket true], Bot.empty_store) /\
  counter Bot.empty_store (KTickets 7) = 0.
Proof. apply fresh_user_no_ticket. reflexivity. Defined.

End Runs.
