(* ===== verification/Concurrency.v ===== *)
(** * Several bot instances on one Redis: interleaved handlers

    Within one bot process the handlers run one at a time (Bot.v).  Two
    processes started with the same [REDIS_URL], or one process and any other
    Redis client, run their handlers concurrently, and Redis executes their
    commands interleaved one command at a time: the code issues each read and
    each write as a separate command, with no MULTI/EXEC, WATCH or Lua script.

    [prog] is a handler as the sequence of Redis commands it issues, each
    continuation choosing the next command from the reply.  [run_prog] runs
    one program without interruption; [gacha_prog], [reset_prog] and
    [remove_shards_prog] are bot.py's handlers in that form, and
    [run_prog_gacha] and its siblings show they coincide with the atomic
    models of Gacha.v, Pool.v and Shards.v.  [cstep] executes one command of
    one of several running programs; [run_sched] follows a schedule.

    The lemma [run_sched_alone]: a program run to the end by a schedule that
    never switches gives its atomic result, in as many steps as it issues
    commands.  The theorems: four interleavings that break what the specification asks of the
    redemption engine: two [/gacha] by a member holding one ticket both win
    the same reward and leave the counter at -1; two [/remove-shards] both
    pass the balance check and drive the balance negative; two
    [/reset-gacha] leave every reward twice in the pool; a [/gacha] between
    the DEL and the RPUSH of a reset finds the pool empty and loses the
    ticket. *)

From S2P Require Import Prelude Redis Discord Gacha Pool Shards.

Module Conc.

(** A handler as the Redis commands it issues, one at a time. *)
Inductive prog (A : Type) : Type :=
| Done (a : A)
| Cmd {X : Type} (c : RM X) (k : X -> prog A).
Arguments Done {A} a.
Arguments Cmd {A X} c k.

(** Run a program without interruption. *)
Fixpoint run_prog {A} (p : prog A) : RM A :=
  match p with
  | Done a => se_ret a
  | Cmd c k => x <- c ;; run_prog (k x)
  end.

(** bot.py:31-55, one command per step. *)
Definition gacha_prog (chan : bool) (k : nat) (user_id : Z) : prog (list Out) :=
  Cmd (R.get (KTickets user_id)) (fun t =>
  let tickets := default 0 t in
  if tickets <=? 0 then Done [Respond MsgNoTicket true]
  else
    Cmd (R.decr (KTickets user_id)) (fun _ =>
    Cmd (R.lrange KRemaining 0 (-1)) (fun rewards =>
    match rewards with
    | [] => Done [Respond MsgNoRewardsLeft false]
    | _ =>
        let reward := Gacha.random_choice k rewards in
        Cmd (R.lrem KRemaining 1 reward) (fun _ =>
        Cmd (R.rpush KHistory [mkEntry user_id reward]) (fun _ =>
        Done (Respond (MsgCongrats user_id reward) false ::
              if chan then [Announce (MsgJustWon user_id reward)] else [])))
    end))).

(** bot.py:93-101 *)
Definition reset_prog : prog (list Out) :=
  Cmd (R.delete KRemaining) (fun _ =>
  Cmd (R.rpush KRemaining Pool.initial_rewards) (fun _ =>
  Done [Respond MsgResetDone false])).

(** bot.py:140-153 *)
Definition remove_shards_prog (member amount : Z) : prog (list Out) :=
  if amount <=? 0 then Done [Respond MsgAmountNotPositive true]
  else
    Cmd (R.get (KShards member)) (fun c =>
    let current := default 0 c in
    if current <? amount then Done [Respond (MsgShardsTooFew member current amount) true]
    else
      Cmd (R.decrby (KShards member) amount) (fun _ =>
      Cmd (R.get (KShards member)) (fun t =>
      let total := default 0 t in
      Done [Respond (MsgShardsRemoved amount member total) false]))).

(** ** Interleaved execution *)

(** A running handler, a finished one with the messages it sent, or one
    that raised. *)
Inductive proc :=
| Running (p : prog (list Out))
| Crashed (e : redis_error).

Definition config : Type := Store * list proc.

(** Process [i] executes its next Redis command. *)
Definition step_proc (i : nat) (c : config) : option config :=
  let '(s, ps) := c in
  match ps !! i with
  | Some (Running (Cmd cmd k)) =>
      match cmd s with
      | (Ok x, s') => Some (s', <[i := Running (k x)]> ps)
      | (Raise e, s') => Some (s', <[i := Crashed e]> ps)
      end
  | _ => None
  end.

Inductive cstep : config -> config -> Prop :=
| cstep_intro i c c' : step_proc i c = Some c' -> cstep c c'.

Fixpoint run_sched (sched : list nat) (c : config) : option config :=
  match sched with
  | [] => Some c
  | i :: sched' => match step_proc i c with
                   | Some c' => run_sched sched' c'
                   | None => None
                   end
  end.

(** The number of commands [p] issues from [s] when run alone. *)
Fixpoint prog_len {A} (p : prog A) (s : Store) : nat :=
  match p with
  | Done _ => 0
  | Cmd c k => match c s with
               | (Ok x, s') => S (prog_len (k x) s')
               | (Raise _, _) => 1
               end
  end.

(** ** A handler run alone *)

(** The command-by-command programs, run without interruption, are the
    atomic handlers. *)
Lemma run_prog_gacha chan k u s : run_prog (gacha_prog chan k u) s = Gacha.gacha chan k u s.
Proof.
  unfold gacha_prog, Gacha.gacha. cbn [run_prog]. se_unfold.
  repeat (case_match; simplify_eq; cbn [run_prog] in *; se_unfold); done.
Qed.

Lemma run_prog_reset s : run_prog reset_prog s = Pool.reset s.
Proof. reflexivity. Qed.

Lemma run_prog_remove_shards m a s :
  run_prog (remove_shards_prog m a) s = Shards.remove_shards m a s.
Proof.
  unfold remove_shards_prog, Shards.remove_shards. se_unfold.
  repeat (case_match; simplify_eq; cbn [run_prog] in *; se_unfold); done.
Qed.

(** What is left of a process once its program has run. *)
Definition proc_of (r : result redis_error (list Out)) : proc :=
  match r with Ok a => Running (Done a) | Raise e => Crashed e end.

(**     Scheduling process [i] alone for as many steps as its program issues
    commands runs the program to its end, with the atomic result. *)
Lemma run_sched_alone p s ps i :
  ps !! i = Some (Running p) ->
  run_sched (repeat i (prog_len p s)) (s, ps) =
  Some (final (run_prog p s), <[i := proc_of (outcome (run_prog p s))]> ps).
Proof.
  revert s ps. induction p as [a|X c k IH]; intros s ps Hi; simpl.
  - f_equal. f_equal. by rewrite list_insert_id.
  - se_unfold. destruct (c s) as [[x|e] s1] eqn:Ec; simpl; rewrite Hi, Ec.
    + rewrite IH by (rewrite list_lookup_insert_eq; [done | by eapply lookup_lt_Some]).
      by rewrite list_insert_insert_eq.
    + done.
Qed.

(** ** Interleavings that break the redemption engine's guarantees *)

(** Unfold the Redis commands of the interleaved programs. *)
Ltac unfold_cmds :=
  unfold R.decr, R.decrby, R.incrby, R.get, R.lrange, R.lrem, R.rpush, R.delete,
    counter, set_counter in *.

(** C7:      Two [/gacha] by a member holding one ticket, interleaved command by
    command (both read the counter before either decrements it): both win,
    the same reward, the history records it twice, and the ticket counter
    ends at -1. *)
Theorem double_win_race (chan : bool) k u s :
  counter s (KTickets u) = 1 -> remaining s <> [] ->
  let r := Gacha.random_choice k (remaining s) in
  let won := Running (Done (Respond (MsgCongrats u r) false ::
                            if chan then [Announce (MsgJustWon u r)] else [])) in
  exists s' : Store,
    run_sched [0; 1; 0; 1; 0; 1; 0; 1; 0; 1]%nat
      (s, [Running (gacha_prog chan k u); Running (gacha_prog chan k u)]) =
      Some (s', [won; won]) /\
    counter s' (KTickets u) = -1 /\
    history s' = history s ++ [mkEntry u r; mkEntry u r].
Proof.
  intros Ht Hr r won. destruct s as [c p h]. unfold_cmds. simpl in *.
  destruct p as [|x l]; [done|].
  exists (mkStore (<[KTickets u := -1]> (<[KTickets u := 0]> c))
                 (fst (lrem_list 1 r (fst (lrem_list 1 r (x :: l)))))
                 (h ++ [mkEntry u r; mkEntry u r])).
  do 4 (simpl; unfold_cmds; rewrite ?Ht, ?lookup_insert_eq, ?lrange_list_all).
  simpl. fold r.
  destruct (lrem_list 1 r (x :: l)) as [l1 n1]. simpl.
  destruct (lrem_list 1 r l1) as [l2 n2]. simpl.
  split; [by rewrite <- app_assoc | done].
Qed.

(** C10:      Two [/remove-shards] of [amount] against a balance [a] with
    [amount <= a < 2 * amount], interleaved: both read [a], both pass the
    check, both DECRBY, and the balance ends negative. *)
Theorem remove_shards_race m amount s :
  0 < amount <= counter s (KShards m) -> counter s (KShards m) < 2 * amount ->
  counter s (KShards m) <= i64_max ->
  let a := counter s (KShards m) in
  let done_ := Running (Done [Respond (MsgShardsRemoved amount m (a - 2 * amount)) false]) in
  exists s' : Store,
    run_sched [0; 1; 0; 1; 0; 1]%nat
      (s, [Running (remove_shards_prog m amount); Running (remove_shards_prog m amount)]) =
      Some (s', [done_; done_]) /\
    counter s' (KShards m) = a - 2 * amount /\ counter s' (KShards m) < 0.
Proof.
  intros Hlo Hhi Hmax a done_. destruct s as [c p h]. subst done_ a. unfold_cmds. simpl in *.
  remember (default 0 (c !! KShards m)) as a eqn:Ea.
  unfold remove_shards_prog.
  assert (G0 : (amount <=? 0) = false) by (apply Z.leb_gt; lia).
  assert (G1 : (a <? amount) = false) by (apply Z.ltb_ge; lia).
  assert (G2 : in_i64 amount = true) by (apply in_i64_spec; unfold i64_min, i64_max in *; lia).
  assert (G3 : (amount =? i64_min) = false) by (apply Z.eqb_neq; unfold i64_min; lia).
  assert (G4 : in_i64 (- amount) = true) by (apply in_i64_spec; unfold i64_min, i64_max in *; lia).
  assert (G5 : in_i64 (a + - amount) = true) by (apply in_i64_spec; unfold i64_min, i64_max in *; lia).
  assert (G6 : in_i64 (a + - amount + - amount) = true)
    by (apply in_i64_spec; unfold i64_min, i64_max in *; lia).
  rewrite G0. eexists.
  do 6 (simpl; unfold_cmds; rewrite <- ?Ea, ?G1, ?G2, ?G3, ?G4, ?G5, ?G6, ?lookup_insert_eq).
  simpl. replace (a + - amount + - amount) with (a - 2 * amount) by lia.
  split; [reflexivity|]. simpl. rewrite lookup_insert_eq. simpl. lia.
Qed.

(** C12:      Two [/reset-gacha] interleaved (both DEL before either RPUSH): the
    pool holds every reward twice, 400 entries. *)
Theorem double_reset_race s :
  run_sched [0; 1; 0; 1]%nat (s, [Running reset_prog; Running reset_prog]) =
    Some (mkStore (counters s) (Pool.initial_rewards ++ Pool.initial_rewards) (history s),
          [Running (Done [Respond MsgResetDone false]);
           Running (Done [Respond MsgResetDone false])]) /\
  ~ NoDup (Pool.initial_rewards ++ Pool.initial_rewards).
Proof.
  split; [by destruct s|].
  rewrite NoDup_app. intros (_ & Hdisj & _). apply (Hdisj 1); by apply Pool.elem_of_initial_rewards.
Qed.

(** C11:      A [/gacha] whose three first commands run between the DEL and the
    RPUSH of a [/reset-gacha]: it reads an empty pool, answers that no
    rewards are left, and the member's ticket is spent, whatever the pool
    held before the reset and although the reset refills it. *)
Theorem reset_gacha_race (chan : bool) k u s :
  0 < counter s (KTickets u) <= i64_max ->
  exists s' : Store,
    run_sched [0; 1; 1; 1; 0]%nat
      (s, [Running reset_prog; Running (gacha_prog chan k u)]) =
      Some (s', [Running (Done [Respond MsgResetDone false]);
                 Running (Done [Respond MsgNoRewardsLeft false])]) /\
    counter s' (KTickets u) = counter s (KTickets u) - 1 /\
    remaining s' = Pool.initial_rewards /\ history s' = history s.
Proof.
  intros Ht. destruct s as [c p h]. unfold_cmds. simpl in *.
  remember (default 0 (c !! KTickets u)) as t eqn:Et.
  assert (G0 : (t <=? 0) = false) by (apply Z.leb_gt; lia).
  assert (G1 : in_i64 (t + -1) = true) by (apply in_i64_spec; unfold i64_min, i64_max in *; lia).
  eexists. do 3 (simpl; unfold_cmds; rewrite <- ?Et, ?G0, ?G1).
  split; [reflexivity|]. simpl. rewrite lookup_insert_eq. by split_and!.
Qed.

(** ** Witnesses *)

Definition w_race : Store := mkStore {[KTickets 7 := 1; KShards 7 := 10]} [3; 5] [].

Lemma double_win_race_witness :
  let r := Gacha.random_choice 0 (remaining w_race) in
  let won := Running (Done (Respond (MsgCongrats 7 r) false :: [])) in
  exists s' : Store,
    run_sched [0; 1; 0; 1; 0; 1; 0; 1; 0; 1]%nat
      (w_race, [Running (gacha_prog false 0 7); Running (gacha_prog false 0 7)]) =
      Some (s', [won; won]) /\
    counter s' (KTickets 7) = -1 /\
    history s' = history w_race ++ [mkEntry 7 r; mkEntry 7 r].
Proof. apply (double_win_race false 0 7 w_race); [reflexivity | discriminate]. Defined.

Lemma remove_shards_race_witness :
  let a := counter w_race (KShards 7) in
  let done_ := Running (Done [Respond (MsgShardsRemoved 6 7 (a - 2 * 6)) false]) in
  exists s' : Store,
    run_sched [0; 1; 0; 1; 0; 1]%nat
      (w_race, [Running (remove_shards_prog 7 6); Running (remove_shards_prog 7 6)]) =
      Some (s', [done_; done_]) /\
    counter s' (KShards 7) = a - 2 * 6 /\ counter s' (KShards 7) < 0.
Proof.
  apply remove_shards_race; vm_compute; [split; congruence | congruence | congruence].
Defined.

Lemma reset_gacha_race_witness :
  exists s' : Store,
    run_sched [0; 1; 1; 1; 0]%nat
      (w_race, [Running reset_prog; Running (gacha_prog true 0 7)]) =
      Some (s', [Running (Done [Respond MsgResetDone false]);
                 Running (Done [Respond MsgNoRewardsLeft false])]) /\
    counter s' (KTickets 7) = counter w_race (KTickets 7) - 1 /\
    remaining s' = Pool.initial_rewards /\ history s' = history w_race.
Proof. apply reset_gacha_race. vm_compute. split; congruence. Defined.

End Conc.
