(* ===== verification/Ledger.v ===== *)
(** * The specification's redemption engine, and the code against it

    The specification (section 4) describes a ticket ledger, a reward pool
    and a history log, each through atomic primitives, and a coordinator
    that composes them: consume a ticket, take a random reward, refund the
    ticket when the pool is empty, append the win to the history.

    [Ledger] is that interface as a type class over an abstract state, and
    [LedgerLaws] the contract of each primitive.  [redeem] is the
    coordinator written against the interface only; its theorems
    ([redeem_ticket_accounting], [redeem_conservation]) are proved from the
    laws alone.  [store_ledger] implements the interface on the bot's Redis
    store and [store_ledger_laws] discharges the contract.  The refinement
    theorem [gacha_refines_redeem] compares bot.py's [/gacha] with [redeem]
    on that store: the same answer and the same final store when the member
    has no ticket or wins, and, on an empty pool, the store after the ticket
    was consumed, without the refund.  [gachas_refine_redeems] lifts this to
    a whole run of [/gacha] in one process ([Runs.gachas] against
    [redeems]) when the pool holds enough rewards.

    [ShardLedger] and [ShardLaws] are the shard ledger of section 4.3, with
    [give] and [take] its [credit] and [debit] with their refusals;
    [store_shards] implements it on the store and [shards_refine_ledger]
    shows [/give-shards] and [/remove-shards] answer and end as [give] and
    [take] do within the 64-bit range. *)

From S2P Require Import Prelude Redis Discord Gacha Shards Runs.

Module Ledger.

Inductive redeem_result :=
| NoTicket
| PoolExhausted
| Won (r : Z).

Class Ledger (S : Type) := {
  tickets_of : S -> Z -> Z;
  pool_of : S -> list Z;
  history_of : S -> list Entry;
  grant_ticket : Z -> S -> S;
  try_consume : Z -> S -> bool * S;
  take_random : nat -> S -> option Z * S;
  append_entry : Entry -> S -> S
}.

(** The contract of each primitive, as section 4 of the specification
    states it: grant adds one ticket; consumption succeeds exactly on a
    positive balance and then removes one ticket; a take returns an element
    of the pool and removes that one copy, or nothing on an empty pool;
    append adds at the end of the history; each touches nothing else. *)
Class LedgerLaws (S : Type) `{Ledger S} := {
  grant_spec u s v :
    tickets_of (grant_ticket u s) v = tickets_of s v + (if bool_decide (u = v) then 1 else 0);
  grant_frame u s :
    pool_of (grant_ticket u s) = pool_of s /\ history_of (grant_ticket u s) = history_of s;
  consume_spec u s :
    let '(b, s') := try_consume u s in
    b = bool_decide (0 < tickets_of s u) /\
    (forall v, tickets_of s' v =
               tickets_of s v - (if b && bool_decide (u = v) then 1 else 0)) /\
    pool_of s' = pool_of s /\ history_of s' = history_of s;
  take_spec k s :
    let '(o, s') := take_random k s in
    (forall v, tickets_of s' v = tickets_of s v) /\ history_of s' = history_of s /\
    match o with
    | None => pool_of s = [] /\ pool_of s' = []
    | Some r => r ∈ pool_of s /\ pool_of s ≡ₚ r :: pool_of s'
    end;
  append_spec e s :
    history_of (append_entry e s) = history_of s ++ [e] /\
    pool_of (append_entry e s) = pool_of s /\
    (forall v, tickets_of (append_entry e s) v = tickets_of s v)
}.

(** The coordinator of section 4.4, with the random draw [k]. *)
Definition redeem {S} `{Ledger S} (k : nat) (u : Z) (s : S) : redeem_result * S :=
  match try_consume u s with
  | (false, s1) => (NoTicket, s1)
  | (true, s1) =>
      match take_random k s1 with
      | (None, s2) => (PoolExhausted, grant_ticket u s2)
      | (Some r, s2) => (Won r, append_entry (mkEntry u r) s2)
      end
  end.

(** ** The coordinator's guarantees, from the contract alone *)

Section Client.
Context {S : Type} `{LedgerLaws S}.

(** No stranded ticket: a redemption takes a ticket from the member exactly
    when it wins a reward, and touches no other balance. *)
Lemma redeem_ticket_accounting k u s :
  let '(res, s') := redeem k u s in
  forall v, tickets_of s' v =
            tickets_of s v - (if res is Won _ then (if bool_decide (u = v) then 1 else 0) else 0).
Proof.
  unfold redeem. pose proof (consume_spec u s) as Hc.
  destruct (try_consume u s) as [[|] s1]; destruct Hc as (Hb & Ht & _).
  - pose proof (take_spec k s1) as Hk.
    destruct (take_random k s1) as [[r|] s2]; destruct Hk as (Hk & _); intros v.
    + destruct (append_spec (mkEntry u r) s2) as (_ & _ & ->).
      rewrite Hk, Ht. simpl. repeat case_bool_decide; subst; lia.
    + rewrite grant_spec, Hk, Ht. simpl. repeat case_bool_decide; subst; lia.
  - intros v. rewrite Ht. simpl. lia.
Qed.

(** Nothing is lost and nothing is created: the pool and the rewards in
    the history, together, are the same multiset before and after. *)
Lemma redeem_conservation k u s :
  let '(_, s') := redeem k u s in
  pool_of s' ++ map e_reward (history_of s') ≡ₚ pool_of s ++ map e_reward (history_of s).
Proof.
  unfold redeem. pose proof (consume_spec u s) as Hc.
  destruct (try_consume u s) as [[|] s1]; destruct Hc as (_ & _ & Hp1 & Hh1).
  - pose proof (take_spec k s1) as Hk.
    destruct (take_random k s1) as [[r|] s2]; destruct Hk as (_ & Hh2 & Hpool).
    + destruct (append_spec (mkEntry u r) s2) as (-> & -> & _).
      rewrite Hh2, Hh1, map_app. simpl. destruct Hpool as (_ & Hp). rewrite <- Hp1, Hp.
      rewrite (Permutation_app_comm (map e_reward (history_of s)) [r]). simpl.
      symmetry. apply Permutation_middle.
    + destruct (grant_frame u s2) as (-> & ->). destruct Hpool as (H1 & ->).
      by rewrite Hh2, Hh1, <- Hp1, H1.
  - by rewrite Hp1, Hh1.
Qed.

End Client.

(** ** The bot's Redis store implements the interface *)

#[export] Instance store_ledger : Ledger Store := {
  tickets_of s u := counter s (KTickets u);
  pool_of := remaining;
  history_of := history;
  grant_ticket u s := set_counter (KTickets u) (counter s (KTickets u) + 1) s;
  try_consume u s :=
    if counter s (KTickets u) <=? 0 then (false, s)
    else (true, set_counter (KTickets u) (counter s (KTickets u) - 1) s);
  take_random k s :=
    match remaining s with
    | [] => (None, s)
    | l => let r := Gacha.random_choice k l in
           (Some r, lset KRemaining (fst (lrem_list 1 r l)) s)
    end;
  append_entry e s := lset KHistory (history s ++ [e]) s
}.

Lemma counter_set_ticket s u v x :
  counter (set_counter (KTickets u) x s) (KTickets v) =
  if bool_decide (u = v) then x else counter s (KTickets v).
Proof.
  case_bool_decide; [subst; apply counter_set_counter_eq|].
  apply counter_set_counter_ne. congruence.
Qed.

#[export] Instance store_ledger_laws : LedgerLaws Store.
Proof.
  split.
  - intros u s v. simpl. rewrite counter_set_ticket. case_bool_decide; subst; lia.
  - done.
  - intros u s. simpl. destruct (counter s (KTickets u) <=? 0) eqn:E; zbool.
    + rewrite bool_decide_false by lia. split_and!; [done | intros v; simpl; lia | done | done].
    + rewrite bool_decide_true by lia. split_and!; [done | | done | done].
      intros v. rewrite counter_set_ticket. simpl. case_bool_decide; subst; lia.
  - intros k s. simpl. destruct (remaining s) as [|x l] eqn:E; [done|].
    split_and!; [done | done | |].
    + apply Gacha.random_choice_elem. done.
    + apply lrem_list_1_perm, Gacha.random_choice_elem. done.
  - done.
Qed.

(** ** Refinement: bot.py's [/gacha] against the coordinator *)

(** The answer the bot gives for each outcome of a redemption. *)
Definition reply_of (chan : bool) (u : Z) (res : redeem_result) : list Out :=
  match res with
  | NoTicket => [Respond MsgNoTicket true]
  | PoolExhausted => [Respond MsgNoRewardsLeft false]
  | Won r => Respond (MsgCongrats u r) false ::
             if chan then [Announce (MsgJustWon u r)] else []
  end.

(** C3:      On the Redis store, [/gacha] answers as [redeem] does for the same
    random draw; it ends in the same store when the member has no ticket or
    wins; on an empty pool it ends in the store right after the ticket was
    consumed, which is [redeem]'s final store without the refund. *)
Theorem gacha_refines_redeem chan k u s :
  counter s (KTickets u) <= i64_max ->
  let '(res, s') := redeem k u s in
  Gacha.gacha chan k u s =
    (Ok (reply_of chan u res), if res is PoolExhausted then snd (try_consume u s) else s').
Proof.
  intros Hmax. unfold redeem. simpl.
  destruct (counter s (KTickets u) <=? 0) eqn:E; zbool.
  - by rewrite Gacha.gacha_no_ticket.
  - change (remaining (set_counter (KTickets u) (counter s (KTickets u) - 1) s))
      with (remaining s).
    destruct (remaining s) as [|x l] eqn:Er.
    + by rewrite Gacha.gacha_empty_pool by (done || lia).
    + rewrite Gacha.gacha_win by (rewrite ?Er; done || lia). rewrite Er. done.
Qed.

Lemma gacha_refines_redeem_witness :
  let s := mkStore {[KTickets 7 := 1]} [3; 5] [] in
  let '(res, s') := redeem 1 7 s in
  Gacha.gacha true 1 7 s =
    (Ok (reply_of true 7 res), if res is PoolExhausted then snd (try_consume 7 s) else s').
Proof. apply gacha_refines_redeem. vm_compute. congruence. Defined.

(** ** The shard ledger (section 4.3) *)

Inductive shard_error := InvalidAmount | InsufficientBalance.

(** The primitives: the balance, and the two updates the specification
    performs once the amount has been checked. *)
Class ShardLedger (S : Type) := {
  balance : S -> Z -> Z;
  credit : Z -> Z -> S -> S;
  debit : Z -> Z -> S -> S
}.

(** Each update moves one balance by the amount and leaves the others. *)
Class ShardLaws (S : Type) `{ShardLedger S} := {
  credit_spec u a s v :
    balance (credit u a s) v = balance s v + (if bool_decide (u = v) then a else 0);
  debit_spec u a s v :
    balance (debit u a s) v = balance s v - (if bool_decide (u = v) then a else 0)
}.

(** [credit] and [debit] of section 4.3, with their refusals; the answer
    is the new balance. *)
Definition give {S} `{ShardLedger S} (u a : Z) (s : S) : (shard_error + Z) * S :=
  if a <=? 0 then (inl InvalidAmount, s)
  else let s' := credit u a s in (inr (balance s' u), s').

Definition take {S} `{ShardLedger S} (u a : Z) (s : S) : (shard_error + Z) * S :=
  if a <=? 0 then (inl InvalidAmount, s)
  else if balance s u <? a then (inl InsufficientBalance, s)
  else let s' := debit u a s in (inr (balance s' u), s').

Section ShardClient.
Context {S : Type} `{ShardLaws S}.

(** From the contract alone: a debit never takes a non-negative balance
    below zero, and a refused operation changes nothing. *)
Lemma take_nonneg u a s v :
  0 <= balance s v -> 0 <= balance (take u a s).2 v.
Proof.
  unfold take. intros Hv. destruct (a <=? 0) eqn:E0; [done|].
  destruct (balance s u <? a) eqn:E1; [done|]. simpl. rewrite debit_spec.
  zbool. case_bool_decide; subst; lia.
Qed.

End ShardClient.

#[export] Instance store_shards : ShardLedger Store := {
  balance s u := counter s (KShards u);
  credit u a s := set_counter (KShards u) (counter s (KShards u) + a) s;
  debit u a s := set_counter (KShards u) (counter s (KShards u) - a) s
}.

Lemma counter_set_shards s u v x :
  counter (set_counter (KShards u) x s) (KShards v) =
  if bool_decide (u = v) then x else counter s (KShards v).
Proof.
  case_bool_decide; [subst; apply counter_set_counter_eq|].
  apply counter_set_counter_ne. congruence.
Qed.

#[export] Instance store_shard_laws : ShardLaws Store.
Proof.
  split; intros u a s v; simpl; rewrite counter_set_shards; case_bool_decide; subst; lia.
Qed.

(** The answers of [/give-shards] and [/remove-shards] for each outcome. *)
Definition give_reply (m a : Z) (r : shard_error + Z) : list Out :=
  match r with
  | inl InvalidAmount => [Respond MsgAmountNotPositive true]
  | inl InsufficientBalance => []
  | inr t => [Respond (MsgShardsGiven a m t) false]
  end.

Definition take_reply (m a current : Z) (r : shard_error + Z) : list Out :=
  match r with
  | inl InvalidAmount => [Respond MsgAmountNotPositive true]
  | inl InsufficientBalance => [Respond (MsgShardsTooFew m current a) true]
  | inr t => [Respond (MsgShardsRemoved a m t) false]
  end.

(** C15:      On the Redis store, with the member's shard balance a Redis
    integer that is not negative, [/give-shards] answers and ends as
    [credit] of section 4.3 does whenever the new balance stays a Redis
    integer, and [/remove-shards] answers and ends as [debit] does: the same
    refusals with nothing written, the same new balance. *)
Theorem shards_refine_ledger m a s :
  0 <= counter s (KShards m) <= i64_max ->
  (counter s (KShards m) + a <= i64_max ->
   let '(r, s') := give m a s in Shards.give_shards m a s = (Ok (give_reply m a r), s')) /\
  (let '(r, s') := take m a s in
   Shards.remove_shards m a s = (Ok (take_reply m a (counter s (KShards m)) r), s')).
Proof.
  intros Hc. unfold give, take. simpl.
  destruct (a <=? 0) eqn:E0; zbool.
  { split; [intros _|]; by rewrite ?Shards.give_shards_not_positive, ?Shards.remove_shards_not_positive. }
  split.
  - intros Hmax. rewrite Shards.give_shards_ok by (unfold i64_min, i64_max in *; lia).
    by rewrite counter_set_counter_eq.
  - destruct (counter s (KShards m) <? a) eqn:E1; zbool.
    + by rewrite Shards.remove_shards_too_few.
    + rewrite Shards.remove_shards_ok by lia. by rewrite counter_set_counter_eq.
Qed.

Lemma shards_refine_ledger_witness :
  let s := mkStore {[KShards 7 := 10]} [] [] in
  (counter s (KShards 7) + 15 <= i64_max ->
   let '(r, s') := give 7 15 s in Shards.give_shards 7 15 s = (Ok (give_reply 7 15 r), s')) /\
  (let '(r, s') := take 7 15 s in
   Shards.remove_shards 7 15 s = (Ok (take_reply 7 15 (counter s (KShards 7)) r), s')).
Proof. apply shards_refine_ledger. vm_compute. split; congruence. Defined.

(** ** Refinement of whole runs *)

(** The coordinator applied once per random draw of [ks]. *)
Fixpoint redeems {S} `{Ledger S} (ks : list nat) (u : Z) (s : S) : list redeem_result * S :=
  match ks with
  | [] => ([], s)
  | k :: ks' =>
      let '(r, s1) := redeem k u s in
      let '(rs, s2) := redeems ks' u s1 in
      (r :: rs, s2)
  end.

Lemma length_lrem_1 (l : list Z) v : v ∈ l -> S (length (fst (lrem_list 1 v l))) = length l.
Proof.
  intros Hv. destruct (lrem_list_1_perm l v Hv) as [Hp _].
  apply Permutation_length in Hp. simpl in Hp. lia.
Qed.

(** C14:      A member issuing [/gacha] once per draw of [ks] in one bot
    process, on a pool holding at least as many rewards as attempts, gets
    exactly the answers of the specification's coordinator run on the same
    draws, and the store ends as the coordinator's does: with enough
    rewards the missing refund never matters. *)
Theorem gachas_refine_redeems chan u ks s :
  counter s (KTickets u) <= i64_max -> (length ks <= length (remaining s))%nat ->
  let '(rs, s') := redeems ks u s in
  Runs.gachas chan u ks s = (map (fun r => Ok (reply_of chan u r)) rs, s').
Proof.
  revert s. induction ks as [|k ks IH]; intros s Hmax Hlen; [done|].
  cbn [redeems Runs.gachas]. unfold redeem. simpl.
  destruct (counter s (KTickets u) <=? 0) eqn:E; zbool.
  - rewrite Gacha.gacha_no_ticket by done.
    specialize (IH s Hmax ltac:(simpl in Hlen; lia)).
    destruct (redeems ks u s) as [rs s']. by rewrite IH.
  - change (remaining (set_counter (KTickets u) (counter s (KTickets u) - 1) s))
      with (remaining s).
    destruct (remaining s) as [|x l] eqn:Er; [simpl in Hlen; lia|].
    rewrite Gacha.gacha_win by (rewrite ?Er; done || lia). rewrite Er. simpl.
    pose proof (length_lrem_1 (x :: l) (Gacha.random_choice k (x :: l))
                  (Gacha.random_choice_elem k (x :: l) ltac:(done))) as Hl.
    match goal with
    | |- context [redeems ks u ?s1] =>
        specialize (IH s1); destruct (redeems ks u s1) as [rs s'] eqn:Ers
    end.
    rewrite IH; [done | rewrite counter_insert_eq; lia | simpl in *; lia].
Qed.

Lemma gachas_refine_redeems_witness :
  let s := mkStore {[KTickets 7 := 2]} [3; 5; 8] [] in
  let '(rs, s') := redeems [1; 0; 2]%nat 7 s in
  Runs.gachas true 7 [1; 0; 2]%nat s = (map (fun r => Ok (reply_of true 7 r)) rs, s').
Proof. apply gachas_refine_redeems; [vm_compute; congruence | simpl; lia]. Defined.

End Ledger.
