(* ===== verification/Interleaving.v ===== *)
(** * Any number of bot instances, any interleaving

    Concurrency.v gives [/gacha], [/reset-gacha] and [/remove-shards] as
    the sequences of Redis commands they issue and exhibits interleavings
    that break the specification.  This file gives the six other handlers
    in the same form ([add_ticket_prog], [remaining_prog], [rewards_prog],
    [last_winners_prog], [give_shards_prog], [shards_prog]), routes a
    request to its program as [Bot.handler_of] does ([request_prog]), and
    shows what survives every interleaving of every mix of requests.

    Section [Guarantee] is a rely/guarantee argument over the store: a
    program is [safe] for a store invariant [I] and a guarantee [G] when
    each of its commands, run on any store satisfying [I], keeps [I] and
    moves the store along [G], and each continuation is safe for every
    reply such a store can give.  The processes of a configuration never
    see each other except through the store, so if every program is safe,
    every schedule keeps [I] and moves the store along [G]
    ([run_sched_safe]).

    The theorems: every program is its atomic handler when run alone
    ([run_prog_request]); under any interleaving the pool and the history
    only ever hold reward ids in [1, 200] and the history is only appended
    to ([interleaved_ids_ok]). *)

From S2P Require Import Prelude Redis Discord Gacha Pool History Shards Bot Concurrency.

Module Interleaving.
Import Conc.

(** ** The other handlers, command by command *)

(** bot.py:61-62 *)
Definition add_ticket_prog (member : Z) : prog (list Out) :=
  Cmd (R.incr (KTickets member)) (fun _ =>
  Done [Respond (MsgTicketAdded member) false]).

(** bot.py:68-88 *)
Definition remaining_prog : prog (list Out) :=
  Cmd (R.lrange KRemaining 0 (-1)) (fun rewards =>
  match rewards with
  | [] => Done [Respond MsgPoolEmpty false]
  | _ =>
      let detail := if (length rewards <=? 10)%nat then Some (Pool.py_sorted rewards) else None in
      Done [Respond (MsgRemaining (Pool.summarize rewards) detail) false]
  end).

(** bot.py:106-111 *)
Definition rewards_prog : prog (list Out) :=
  Cmd (R.lrange KHistory (-10) (-1)) (fun history =>
  match history with
  | [] => Done [Respond MsgNoHistory false]
  | _ => Done [Respond (MsgHistory history) false]
  end).

(** bot.py:117-124 *)
Definition last_winners_prog (count : Z) : prog (list Out) :=
  Cmd (R.lrange KHistory (- count) (-1)) (fun history =>
  match history with
  | [] => Done [Respond MsgNoWinners false]
  | _ => Done [Respond (MsgWinners history) false]
  end).

(** bot.py:130-135 *)
Definition give_shards_prog (member amount : Z) : prog (list Out) :=
  if amount <=? 0 then Done [Respond MsgAmountNotPositive true]
  else
    Cmd (R.incrby (KShards member) amount) (fun _ =>
    Cmd (R.get (KShards member)) (fun t =>
    let total := default 0 t in
    Done [Respond (MsgShardsGiven amount member total) false])).

(** bot.py:158-160 *)
Definition shards_prog (user_id : Z) : prog (list Out) :=
  Cmd (R.get (KShards user_id)) (fun t =>
  let total := default 0 t in
  Done [Respond (MsgShardTotal total) false]).

(** The program a request runs, routed as [Bot.handler_of] routes it. *)
Definition request_prog (rq : Bot.Request) : prog (list Out) :=
  match Bot.cmd rq with
  | Bot.CGacha k => gacha_prog (Bot.channel_found rq) k (Bot.caller rq)
  | Bot.CAddTicket m => add_ticket_prog m
  | Bot.CRemaining => remaining_prog
  | Bot.CReset => reset_prog
  | Bot.CRewards => rewards_prog
  | Bot.CLastWinners n => last_winners_prog n
  | Bot.CGiveShards m a => give_shards_prog m a
  | Bot.CRemoveShards m a => remove_shards_prog m a
  | Bot.CShards => shards_prog (Bot.caller rq)
  end.

(** The processes started for a list of requests. *)
Definition start (rqs : list Bot.Request) : list proc :=
  map (fun rq => Running (request_prog rq)) rqs.

(** ** Run alone, each program is its handler *)

(**     Every request's command sequence, run without interruption, is the
    atomic handler [Bot.handler_of] gives it: same answer, same error, same
    final store, for each of the nine commands. *)
Theorem run_prog_request rq s : run_prog (request_prog rq) s = Bot.handler_of rq s.
Proof.
  unfold request_prog, Bot.handler_of.
  destruct (Bot.cmd rq); [apply run_prog_gacha | | | apply run_prog_reset | | |
                          | apply run_prog_remove_shards |];
    unfold remaining_prog, rewards_prog, last_winners_prog, give_shards_prog, shards_prog,
      add_ticket_prog, Pool.remaining, History.rewards, History.last_winners,
      Shards.give_shards, Shards.shards, Gacha.add_ticket;
    cbn [run_prog]; se_unfold;
    repeat (case_match; simplify_eq; cbn [run_prog] in *; se_unfold); done.
Qed.

(** ** Rely and guarantee *)

Section Guarantee.
Context (I : Store -> Prop) (G : relation Store) `{!PreOrder G}.

(** A command keeps the invariant and moves the store along [G]. *)
Definition cmd_safe {X} (c : RM X) : Prop :=
  forall s, I s -> I (final (c s)) /\ G s (final (c s)).

(** Every command the program can still issue is safe, for every reply a
    store satisfying [I] can give. *)
Fixpoint safe {A} (p : prog A) : Prop :=
  match p with
  | Done _ => True
  | Cmd c k => cmd_safe c /\ forall s x s', I s -> c s = (Ok x, s') -> safe (k x)
  end.

Definition proc_safe (p : proc) : Prop :=
  match p with Running q => safe q | Crashed _ => True end.

Definition config_ok (c : config) : Prop := I c.1 /\ Forall proc_safe c.2.

Lemma step_proc_safe i c c' :
  config_ok c -> step_proc i c = Some c' -> config_ok c' /\ G c.1 c'.1.
Proof.
  destruct c as [s ps]. intros [Hs Hps]. unfold step_proc.
  destruct (ps !! i) as [[[a|X cmd k]|e]|] eqn:Ei; try done.
  destruct (Forall_lookup_1 _ _ _ _ Hps Ei) as [Hc Hk].
  destruct (Hc s Hs) as [HI HG].
  destruct (cmd s) as [[x|e] s'] eqn:Ec; intros [= <-]; simpl in *;
    (split; [split; [done | apply Forall_insert; [done|]] | done]);
    [by apply (Hk s x s') | done].
Qed.

(** Whatever the schedule, the store keeps [I] and moves along [G]. *)
Lemma run_sched_safe sched c c' :
  config_ok c -> run_sched sched c = Some c' -> config_ok c' /\ G c.1 c'.1.
Proof.
  revert c. induction sched as [|i sched IH]; intros c Hc; simpl.
  - intros [= <-]. done.
  - destruct (step_proc i c) as [c1|] eqn:E; [|done]. intros Hrun.
    destruct (step_proc_safe i c c1 Hc E) as [Hc1 HG1].
    destruct (IH c1 Hc1 Hrun) as [Hc' HG']. split; [done | by etrans].
Qed.


End Guarantee.

(** Every process started for a list of requests is safe when every
    request's program is. *)
Lemma start_safe (I : Store -> Prop) (G : relation Store) rqs :
  (forall rq, safe I G (request_prog rq)) -> Forall (proc_safe I G) (start rqs).
Proof.
  intros Hrq. apply Forall_forall. intros p Hp.
  apply list_elem_of_fmap in Hp as (rq & -> & _). apply Hrq.
Qed.

(** ** Reward ids stay in range and the history only grows *)

Definition in_ids (r : Z) : Prop := 1 <= r <= 200.

Definition ids_ok (s : Store) : Prop :=
  Forall in_ids (remaining s) /\ Forall (fun e => in_ids (e_reward e)) (history s).

Definition hist_grows (s s' : Store) : Prop := history s `prefix_of` history s'.

#[export] Instance hist_grows_preorder : PreOrder hist_grows.
Proof. split; unfold hist_grows; [intros ?; done | intros ??? ??; by etrans]. Qed.

Create HintDb interleave discriminated.

Lemma lrem_head_subseteq {A} `{EqDecision A} n v (l : list A) : fst (lrem_head n v l) ⊆ l.
Proof.
  revert n. induction l as [|x l IH]; intros [|n]; simpl; try set_solver.
  case_decide.
  - specialize (IH n). destruct (lrem_head n v l). simpl in *. set_solver.
  - specialize (IH (S n)). destruct (lrem_head (S n) v l). simpl in *. set_solver.
Qed.

Lemma lrem_list_subseteq {A} `{EqDecision A} count v (l : list A) : fst (lrem_list count v l) ⊆ l.
Proof.
  unfold lrem_list. case_match; [apply lrem_head_subseteq|]. case_match.
  - pose proof (lrem_head_subseteq (Z.to_nat (- count)) v (reverse l)) as Hsub.
    destruct (lrem_head _ _ _). simpl in *. intros x. rewrite !elem_of_reverse. set_solver.
  - simpl. intros x. rewrite list_elem_of_filter. tauto.
Qed.

(** The commands that leave both lists alone keep the invariant. *)
Lemma cmd_safe_lists {X} (c : RM X) :
  (forall s, remaining (final (c s)) = remaining s /\ history (final (c s)) = history s) ->
  cmd_safe ids_ok hist_grows c.
Proof. intros Hf s Hs. unfold ids_ok, hist_grows. by destruct (Hf s) as [-> ->]. Qed.

Lemma cmd_safe_incrby k d : cmd_safe ids_ok hist_grows (R.incrby k d).
Proof. apply cmd_safe_lists. intros s. unfold R.incrby. by repeat case_match. Qed.

Lemma cmd_safe_decrby k d : cmd_safe ids_ok hist_grows (R.decrby k d).
Proof. apply cmd_safe_lists. intros s. unfold R.decrby, R.incrby. by repeat case_match. Qed.

Lemma cmd_safe_get k : cmd_safe ids_ok hist_grows (R.get k).
Proof. by apply cmd_safe_lists. Qed.

Lemma cmd_safe_lrange {A} (k : lkey A) a b : cmd_safe ids_ok hist_grows (R.lrange k a b).
Proof. by apply cmd_safe_lists. Qed.

Lemma cmd_safe_lrem count v : cmd_safe ids_ok hist_grows (R.lrem KRemaining count v).
Proof.
  intros s [Hp Hh]. unfold R.lrem, hist_grows. pose proof (lrem_list_subseteq count v (remaining s)) as Hsub.
  destruct (lrem_list count v _) as [l' n]. simpl in *. split; [split|]; [|done..].
  rewrite Forall_forall in Hp |- *. set_solver.
Qed.

Lemma cmd_safe_delete : cmd_safe ids_ok hist_grows (R.delete KRemaining).
Proof. intros s [Hp Hh]. unfold hist_grows. split; [split|]; by simpl. Qed.

Lemma cmd_safe_rpush_pool vs :
  Forall in_ids vs -> cmd_safe ids_ok hist_grows (R.rpush KRemaining vs).
Proof. intros Hv s [Hp Hh]. unfold hist_grows. split; [split|]; simpl; [by apply Forall_app | done | done]. Qed.

Lemma cmd_safe_rpush_history es :
  Forall (fun e => in_ids (e_reward e)) es -> cmd_safe ids_ok hist_grows (R.rpush KHistory es).
Proof.
  intros He s [Hp Hh]. split; [split|]; simpl; [done | by apply Forall_app |].
  unfold hist_grows. simpl. by apply prefix_app_r.
Qed.

#[export] Hint Resolve cmd_safe_incrby cmd_safe_decrby cmd_safe_get cmd_safe_lrange
  cmd_safe_lrem cmd_safe_delete : interleave.

(** Walk a program: each command by the hints, each continuation for every
    reply, each branch. *)
Ltac safe_prog :=
  repeat match goal with
  | |- cmd_safe _ _ _ => solve [auto with interleave]
  | |- _ /\ _ => split
  | |- forall _, _ => intros
  | |- True => exact I
  | |- context [match ?x with _ => _ end] => destruct x
  | |- _ => progress simpl
  end.

Lemma gacha_prog_safe chan k u : safe ids_ok hist_grows (gacha_prog chan k u).
Proof.
  simpl. split; [auto with interleave|]. intros s t s' _ _.
  destruct (_ <=? 0); simpl; [done|].
  split; [apply cmd_safe_incrby|]. intros s1 _ s1' _ _. simpl.
  split; [auto with interleave|]. intros s2 rewards s2' [Hpool _] Hl.
  unfold R.lrange in Hl. injection Hl as <- <-. simpl. rewrite lrange_list_all.
  destruct (remaining s2) as [|x l] eqn:E; simpl; [done|].
  split; [auto with interleave|]. intros. simpl. split; [|done].
  apply cmd_safe_rpush_history, Forall_singleton. simpl.
  rewrite Forall_forall in Hpool. by apply Hpool, Gacha.random_choice_elem.
Qed.

Lemma reset_prog_safe : safe ids_ok hist_grows reset_prog.
Proof.
  simpl. split; [auto with interleave|]. intros. split; [|done].
  apply cmd_safe_rpush_pool, Forall_forall. intros r Hr.
  by apply Pool.elem_of_initial_rewards.
Qed.

Lemma request_prog_safe rq : safe ids_ok hist_grows (request_prog rq).
Proof.
  unfold request_prog. destruct (Bot.cmd rq);
    [apply gacha_prog_safe | | | apply reset_prog_safe | | | | |];
    unfold add_ticket_prog, remaining_prog, rewards_prog, last_winners_prog,
      give_shards_prog, remove_shards_prog, shards_prog, R.incr;
    safe_prog.
Qed.

(** C13:      Under any interleaving of the commands of any requests, from any
    number of bot instances sharing the Redis store, the pool and the
    history only ever hold reward ids between 1 and 200, and the history is
    only appended to.  The permission check only removes requests, so the
    statement covers every mix of callers. *)
Theorem interleaved_ids_ok rqs sched s s' ps' :
  ids_ok s -> run_sched sched (s, start rqs) = Some (s', ps') ->
  ids_ok s' /\ history s `prefix_of` history s'.
Proof.
  intros Hs Hrun.
  destruct (run_sched_safe ids_ok hist_grows sched (s, start rqs) (s', ps')) as [[Hs' _] HG];
    [| done | done].
  split; [done | apply start_safe, request_prog_safe].
Qed.

(** ** Witnesses *)

(** Two [/gacha] by a member holding one ticket and a [/reset-gacha],
    interleaved: both read the ticket, the reset empties the pool before the
    first reads it, refills it before the second does. *)
Definition w_rqs : list Bot.Request :=
  [Bot.mkRequest 7 false true (Bot.CGacha 0); Bot.mkRequest 1 true false Bot.CReset;
   Bot.mkRequest 7 false true (Bot.CGacha 1)].

Definition w_sched : list nat := [0; 2; 1; 0; 2; 0; 1; 2; 2; 2]%nat.

Definition w_cfg : config :=
  Eval vm_compute in default (w_race, []) (run_sched w_sched (w_race, start w_rqs)).

Lemma interleaved_ids_ok_witness :
  ids_ok w_cfg.1 /\ history w_race `prefix_of` history w_cfg.1.
Proof.
  apply (interleaved_ids_ok w_rqs w_sched w_race w_cfg.1 w_cfg.2).
  - split; repeat constructor; simpl; lia.
  - vm_compute. reflexivity.
Defined.

End Interleaving.
